(** * WhatsAppManager: the instance session manager of the gateway

    A shallow embedding of [class WhatsAppManager] (lib/whatsapp.ts): the
    registry [Map<string, WAInstance>], the handlers installed by
    [setupEventHandlers], the lifecycle commands [connect], [disconnect],
    [logout], [deleteInstance], the send and query operations guarded by
    [getClient], and the address helper [formatNumber].

    Conventions of the model.
    - A JavaScript string is a [string]; [formatNumber] only distinguishes the
      ASCII digits from everything else, so the encoding of non-ASCII text
      is irrelevant to it.
    - [WAInstance] objects are mutable and shared between the registry and
      the closures of the handlers: they live in a store of objects and the
      registry holds references.
    - An [async] method is a state transformer that returns either a value
      or the thrown error; what it wrote before throwing stays written.
      Every handler and command runs to completion (no interleaving at an
      [await]).
    - What an external collaborator answers (the protocol client, the
      repository, the QR renderer) is an argument of the operation. *)

From Stdlib Require Import String Ascii List Bool ZArith Lia.
From stdpp Require Import base option gmap sets strings.
Import ListNotations.

(** ** Strings *)

(** The character class [\d] of a regular expression without the [u] flag:
    the ten ASCII digits. *)
Definition is_digit (c : ascii) : bool :=
  let n := nat_of_ascii c in (48 <=? n)%nat && (n <=? 57)%nat.

(** [s.replace(/\D/g, '')]: every character that is not a digit is dropped. *)
Fixpoint replace_non_digits (s : string) : string :=
  match s with
  | EmptyString => EmptyString
  | String c rest =>
      if is_digit c then String c (replace_non_digits rest)
      else replace_non_digits rest
  end.

(** [s.includes(sub)]: [sub] occurs in [s] as a substring. *)
Fixpoint includes (s sub : string) : bool :=
  if String.prefix sub s then true
  else match s with
       | EmptyString => false
       | String _ rest => includes rest sub
       end.

(** [WhatsAppManager.formatNumber]. *)
Definition formatNumber (number : string) : string :=
  let cleaned := replace_non_digits number in
  if negb (includes cleaned "@") then
    if includes cleaned "-" then cleaned +:+ "@g.us"
    else cleaned +:+ "@c.us"
  else cleaned.

(** Every character of the string is a digit. *)
Fixpoint all_digits (s : string) : bool :=
  match s with
  | EmptyString => true
  | String c rest => is_digit c && all_digits rest
  end.

(** ** Strings: lemmas *)

Lemma all_digits_replace_non_digits (s : string) :
  all_digits (replace_non_digits s) = true.
Proof.
  induction s as [|c rest IH]; simpl; [reflexivity|].
  destruct (is_digit c) eqn:Hc; simpl; [rewrite Hc|]; assumption.
Qed.

Lemma replace_non_digits_id (s : string) :
  all_digits s = true -> replace_non_digits s = s.
Proof.
  induction s as [|c rest IH]; simpl; [reflexivity|].
  intros [Hc Hrest]%andb_prop. rewrite Hc, IH by assumption. reflexivity.
Qed.

Lemma replace_non_digits_app (s t : string) :
  replace_non_digits (s +:+ t) = replace_non_digits s +:+ replace_non_digits t.
Proof.
  induction s as [|c rest IH]; [reflexivity|].
  change (String c rest +:+ t) with (String c (rest +:+ t)). simpl.
  rewrite IH. destruct (is_digit c); reflexivity.
Qed.

Lemma includes_char_all_digits (s : string) (c : ascii) :
  is_digit c = false -> all_digits s = true ->
  includes s (String c EmptyString) = false.
Proof.
  intros Hc. induction s as [|d rest IH]; simpl; [reflexivity|].
  intros [Hd Hrest]%andb_prop.
  destruct (Ascii.ascii_dec c d) as [->|_]; [rewrite Hc in Hd; discriminate|].
  apply IH, Hrest.
Qed.

Lemma app_empty_r (s : string) : s +:+ "" = s.
Proof.
  induction s as [|c rest IH]; [reflexivity|].
  change (String c (rest +:+ "") = String c rest). rewrite IH. reflexivity.
Qed.

(** [formatNumber] never reaches its group branch nor its pass-through
    branch: the cleaned value consists of digits only. *)
Lemma formatNumber_digits (number : string) :
  formatNumber number = replace_non_digits number +:+ "@c.us".
Proof.
  unfold formatNumber.
  pose proof (all_digits_replace_non_digits number) as Hd.
  rewrite (includes_char_all_digits _ "@"), (includes_char_all_digits _ "-");
    auto.
Qed.

(** ** Data model *)

(** [WAInstance['status']]. *)
Inductive Status := Sdisconnected | Sconnecting | Sconnected | Sqr.

(** The status column of the repository, the argument of
    [updateInstanceStatus]. *)
Inductive DbStatus := DISCONNECTED | CONNECTING | CONNECTED.

(** [interface WAInstance]. The [client] field holds the identity of the
    protocol client object; an absent optional field is [None]. *)
Record WAInstance := mkWAInstance {
  client : nat;
  id : string;
  status : Status;
  qrCode : option string;
  qrCodeBase64 : option string;
}.

(** A JavaScript [Error] with its message. *)
Inductive Error := mkError (message : string).

(** What an awaited promise settles to, or what a call returns or throws. *)
Inductive Result (A : Type) := Ok (a : A) | Throw (e : Error).
Arguments Ok {A} a.
Arguments Throw {A} e.

(** A JavaScript number that the manager only passes on: its 64 bits. *)
Inductive JsNumber := Float64 (bits : Z).

(** The protocol client's [Message], with the fields [formatMessage] reads. *)
Record Message := mkMessage {
  msg_id_serialized : string;
  msg_from : string;
  msg_to : string;
  msg_body : string;
  msg_type : string;
  msg_timestamp : Z;
  msg_isForwarded : bool;
  msg_isStatus : bool;
  msg_isStarred : bool;
  msg_fromMe : bool;
  msg_hasMedia : bool;
  msg_hasQuotedMsg : bool;
}.

(** The object literal built by [formatMessage]. *)
Record FormattedMessage := mkFormattedMessage {
  fm_id : string;
  fm_from : string;
  fm_to : string;
  fm_body : string;
  fm_type : string;
  fm_timestamp : Z;
  fm_isForwarded : bool;
  fm_isStatus : bool;
  fm_isStarred : bool;
  fm_fromMe : bool;
  fm_hasMedia : bool;
  fm_hasQuotedMsg : bool;
}.

(** [client.info]: [info.wid.user] and [info.pushname]. *)
Record ClientInfo := mkClientInfo { wid_user : string; pushname : string }.

Record MessageMedia := mkMessageMedia {
  mimetype : string;
  media_data : string;
  media_filename : option string;
}.

Record Location := mkLocation {
  latitude : JsNumber;
  longitude : JsNumber;
  location_name : option string;
}.

(** A [Contact] and a [Chat] of the protocol client, by their serialized
    id; [isGroup] is the discriminant the group operations test. *)
Record Contact := mkContact { contact_id : string }.
Record Chat := mkChat { chat_id : string; isGroup : bool }.

(** The second argument of [client.sendMessage]. *)
Inductive Content :=
| ContentText (text : string)
| ContentMedia (media : MessageMedia) (caption : option string)
| ContentLocation (location : Location)
| ContentContact (contact : Contact).

(** A call made on a protocol client, or on a message, chat or contact
    obtained from it. *)
Inductive ClientCall :=
| Cinitialize (c : nat)
| Cdestroy (c : nat)
| Clogout (c : nat)
| CsendMessage (c : nat) (chatId : string) (content : Content)
| CgetContactById (c : nat) (contactId : string)
| CgetMessageById (c : nat) (messageId : string)
| CgetChatById (c : nat) (chatId : string)
| Creact (c : nat) (messageId reaction : string)
| Cdelete (c : nat) (messageId : string) (everyone : bool)
| CsendSeen (c : nat) (chatId : string)
| Cblock (c : nat) (contactId : string)
| Cleave (c : nat) (chatId : string).

(** A notification of the protocol client, one per [client.on(...)] of
    [setupEventHandlers]. Group notifications and calls are passed on as
    they come. *)
Inductive Notification :=
| on_qr (qr : string)
| on_ready
| on_authenticated
| on_auth_failure (msg : string)
| on_disconnected (reason : string)
| on_message (msg : Message)
| on_message_create (msg : Message)
| on_message_ack (msg : Message) (ack : Z)
| on_message_revoke_everyone (msg : Message) (revokedMsg : option Message)
| on_group_join (notification : string)
| on_group_leave (notification : string)
| on_group_update (notification : string)
| on_call (call : string).

(** What the manager publishes with [this.emit(event, payload)]. *)
Inductive Emitted :=
| emit_qr (instanceId qr : string) (qrBase64 : option string)
| emit_ready (instanceId : string) (info : ClientInfo)
| emit_authenticated (instanceId : string)
| emit_auth_failure (instanceId error : string)
| emit_disconnected (instanceId reason : string)
| emit_message (instanceId : string) (message : FormattedMessage)
| emit_message_create (instanceId : string) (message : FormattedMessage)
| emit_message_ack (instanceId messageId : string) (ack : Z)
| emit_message_revoke_everyone (instanceId : string)
    (message : FormattedMessage) (revokedMessage : option FormattedMessage)
| emit_group_join (instanceId notification : string)
| emit_group_leave (instanceId notification : string)
| emit_group_update (instanceId notification : string)
| emit_call (instanceId call : string).

Inductive Level := Linfo | Lwarn | Lerror.

(** A line of the logger: level, the [instanceId] of its context object,
    the other context value when there is one, and the text. *)
Record LogEntry := mkLogEntry {
  level : Level;
  log_instanceId : string;
  log_detail : option string;
  log_text : string;
}.

(** A row of [prisma.instance], with the columns the manager writes. *)
Record DbInstance := mkDbInstance {
  db_status : DbStatus;
  waNumber : option string;
  waName : option string;
}.

(** The manager and the world it acts on. *)
Record Manager := mkManager {
  instances : gmap string nat;   (* this.instances: id to WAInstance object *)
  objects : gmap nat WAInstance; (* the WAInstance objects, by reference *)
  listeners : gmap nat nat;      (* client to the instance of its handlers *)
  next_ref : nat;                (* the next object identity *)
  fs : gset string;              (* existing paths, each with its subtree *)
  db : gmap string DbInstance;   (* the repository *)
  calls : list ClientCall;       (* calls on protocol clients, oldest first *)
  emitted : list Emitted;        (* events published, oldest first *)
  logs : list LogEntry;          (* lines logged, oldest first *)
}.

(** What the collaborators answer while one notification is handled:
    [QRCode.toDataURL], [client.info], and whether the repository fails. *)
Record External := mkExternal {
  toDataURL : string → Result string;
  info : ClientInfo;
  db_failure : option Error;
}.

#[global] Instance Status_eq_dec : EqDecision Status.
Proof. solve_decision. Defined.

(** ** The monad of the manager's methods *)

Definition M (A : Type) : Type := Manager → Result A * Manager.

Definition ret {A} (a : A) : M A := λ m, (Ok a, m).

Definition throw {A} (e : Error) : M A := λ m, (Throw e, m).

Definition bind {A B} (c : M A) (k : A → M B) : M B :=
  λ m, match c m with
       | (Ok a, m') => k a m'
       | (Throw e, m') => (Throw e, m')
       end.

(** [try { c } catch (error) { h error }]. *)
Definition try_catch {A} (c : M A) (h : Error → M A) : M A :=
  λ m, match c m with
       | (Ok a, m') => (Ok a, m')
       | (Throw e, m') => h e m'
       end.

Definition get : M Manager := λ m, (Ok m, m).

Definition modify (f : Manager → Manager) : M unit := λ m, (Ok tt, f m).

(** Awaiting something that is not a protocol client. *)
Definition await {A} (r : Result A) : M A := λ m, (r, m).

Notation "'let*' x ':=' c 'in' k" := (bind c (λ x, k))
  (at level 10, x name, c at level 100, k at level 200).

Definition set_instances (f : gmap string nat → gmap string nat)
    (m : Manager) : Manager :=
  mkManager (f (instances m)) (objects m) (listeners m) (next_ref m) (fs m)
    (db m) (calls m) (emitted m) (logs m).

Definition set_objects (f : gmap nat WAInstance → gmap nat WAInstance)
    (m : Manager) : Manager :=
  mkManager (instances m) (f (objects m)) (listeners m) (next_ref m) (fs m)
    (db m) (calls m) (emitted m) (logs m).

Definition set_listeners (f : gmap nat nat → gmap nat nat)
    (m : Manager) : Manager :=
  mkManager (instances m) (objects m) (f (listeners m)) (next_ref m) (fs m)
    (db m) (calls m) (emitted m) (logs m).

Definition set_next_ref (f : nat → nat)
    (m : Manager) : Manager :=
  mkManager (instances m) (objects m) (listeners m) (f (next_ref m)) (fs m)
    (db m) (calls m) (emitted m) (logs m).

Definition set_fs (f : gset string → gset string)
    (m : Manager) : Manager :=
  mkManager (instances m) (objects m) (listeners m) (next_ref m) (f (fs m))
    (db m) (calls m) (emitted m) (logs m).

Definition set_db (f : gmap string DbInstance → gmap string DbInstance)
    (m : Manager) : Manager :=
  mkManager (instances m) (objects m) (listeners m) (next_ref m) (fs m)
    (f (db m)) (calls m) (emitted m) (logs m).

Definition set_calls (f : list ClientCall → list ClientCall)
    (m : Manager) : Manager :=
  mkManager (instances m) (objects m) (listeners m) (next_ref m) (fs m)
    (db m) (f (calls m)) (emitted m) (logs m).

Definition set_emitted (f : list Emitted → list Emitted)
    (m : Manager) : Manager :=
  mkManager (instances m) (objects m) (listeners m) (next_ref m) (fs m)
    (db m) (calls m) (f (emitted m)) (logs m).

Definition set_logs (f : list LogEntry → list LogEntry)
    (m : Manager) : Manager :=
  mkManager (instances m) (objects m) (listeners m) (next_ref m) (fs m)
    (db m) (calls m) (emitted m) (f (logs m)).

Definition with_status (s : Status) (i : WAInstance) : WAInstance :=
  mkWAInstance (client i) (id i) s (qrCode i) (qrCodeBase64 i).

Definition with_qrCode (q : option string) (i : WAInstance) : WAInstance :=
  mkWAInstance (client i) (id i) (status i) q (qrCodeBase64 i).

Definition with_qrCodeBase64 (q : option string) (i : WAInstance) : WAInstance :=
  mkWAInstance (client i) (id i) (status i) (qrCode i) q.

(** ** The manager's methods *)

(** [instance.field = value] on the object behind a reference. *)
Definition write (instance : nat) (f : WAInstance → WAInstance) : M unit :=
  modify (set_objects (alter f instance)).

(** Reading the object behind a reference. A reference held by the registry
    or by a handler always has its object; the other case is there to keep
    the function total. *)
Definition read (instance : nat) : M WAInstance :=
  λ m, match objects m !! instance with
       | Some i => (Ok i, m)
       | None => (Throw (mkError "dangling reference"), m)
       end.

(** A fresh object identity. *)
Definition new_ref : M nat :=
  λ m, (Ok (next_ref m), set_next_ref S m).

(** A call on a protocol client: recorded, then settled as the client
    answers. *)
Definition call {A} (c : ClientCall) (answer : Result A) : M A :=
  λ m, (answer, set_calls (λ l, l ++ [c]) m).

Definition emit (e : Emitted) : M unit :=
  modify (set_emitted (λ l, l ++ [e])).

Definition logger (lv : Level) (instanceId : string) (detail : option string)
    (text : string) : M unit :=
  modify (set_logs (λ l, l ++ [mkLogEntry lv instanceId detail text])).

(** [prisma.instance.update({ where: { id }, data })]: rejects when the
    repository fails or has no such row, and otherwise rewrites the row. *)
Definition prisma_instance_update (failure : option Error) (instanceId : string)
    (data : DbInstance → DbInstance) : M unit :=
  λ m, match failure with
       | Some e => (Throw e, m)
       | None =>
           match db m !! instanceId with
           | Some row => (Ok tt, set_db (<[instanceId := data row]>) m)
           | None => (Throw (mkError "Record to update not found."), m)
           end
       end.

Definition message_of (e : Error) : string :=
  match e with mkError s => s end.

Definition formatMessage (msg : Message) : FormattedMessage :=
  mkFormattedMessage (msg_id_serialized msg) (msg_from msg) (msg_to msg)
    (msg_body msg) (msg_type msg) (msg_timestamp msg) (msg_isForwarded msg)
    (msg_isStatus msg) (msg_isStarred msg) (msg_fromMe msg) (msg_hasMedia msg)
    (msg_hasQuotedMsg msg).

Definition updateInstanceStatus (failure : option Error) (instanceId : string)
    (st : DbStatus) : M unit :=
  try_catch
    (prisma_instance_update failure instanceId
       (λ row, mkDbInstance st (waNumber row) (waName row)))
    (λ error, logger Lerror instanceId (Some (message_of error))
                "Failed to update instance status").

(** The body of the handlers that [setupEventHandlers] installs on the
    client of [instance]; [id] is the id read from the instance when they
    were installed. *)
Definition handler (instance : nat) (id : string) (n : Notification)
    (ext : External) : M unit :=
  match n with
  | on_qr qr =>
      let* _ := write instance (with_status Sqr) in
      let* _ := write instance (with_qrCode (Some qr)) in
      let* rendered := await (toDataURL ext qr) in
      let* _ := write instance (with_qrCodeBase64 (Some rendered)) in
      let* _ := logger Linfo id None "QR Code generated" in
      let* i := read instance in
      let* _ := emit (emit_qr id qr (qrCodeBase64 i)) in
      updateInstanceStatus (db_failure ext) id CONNECTING
  | on_ready =>
      let* _ := write instance (with_status Sconnected) in
      let* _ := write instance (with_qrCode None) in
      let* _ := write instance (with_qrCodeBase64 None) in
      let info := info ext in
      let* _ := logger Linfo id (Some (wid_user info)) "WhatsApp connected" in
      let* _ := prisma_instance_update (db_failure ext) id
                  (λ _, mkDbInstance CONNECTED (Some (wid_user info))
                          (Some (pushname info))) in
      emit (emit_ready id info)
  | on_authenticated =>
      let* _ := logger Linfo id None "WhatsApp authenticated" in
      emit (emit_authenticated id)
  | on_auth_failure msg =>
      let* _ := write instance (with_status Sdisconnected) in
      let* _ := logger Lerror id (Some msg) "Auth failure" in
      let* _ := updateInstanceStatus (db_failure ext) id DISCONNECTED in
      emit (emit_auth_failure id msg)
  | on_disconnected reason =>
      let* _ := write instance (with_status Sdisconnected) in
      let* _ := logger Lwarn id (Some reason) "WhatsApp disconnected" in
      let* _ := updateInstanceStatus (db_failure ext) id DISCONNECTED in
      emit (emit_disconnected id reason)
  | on_message msg => emit (emit_message id (formatMessage msg))
  | on_message_create msg => emit (emit_message_create id (formatMessage msg))
  | on_message_ack msg ack =>
      emit (emit_message_ack id (msg_id_serialized msg) ack)
  | on_message_revoke_everyone msg revokedMsg =>
      emit (emit_message_revoke_everyone id (formatMessage msg)
              (formatMessage <$> revokedMsg))
  | on_group_join notification => emit (emit_group_join id notification)
  | on_group_leave notification => emit (emit_group_leave id notification)
  | on_group_update notification => emit (emit_group_update id notification)
  | on_call call => emit (emit_call id call)
  end.

(** [setupEventHandlers(instance)]: the handlers are installed on the
    instance's client and keep the instance itself. *)
Definition setupEventHandlers (instance : nat) : M unit :=
  let* i := read instance in
  modify (set_listeners (<[client i := instance]>)).

(** The protocol client [c] emits [n]: the handlers installed on it run.
    A client without handlers has nobody to notify. *)
Definition notify (c : nat) (n : Notification) (ext : External) : M unit :=
  let* m := get in
  match listeners m !! c with
  | Some instance =>
      let* i := read instance in
      handler instance (id i) n ext
  | None => ret tt
  end.

Definition existsSync (path : string) (m : Manager) : bool :=
  bool_decide (path ∈ fs m).

Definition mkdirSync (path : string) : M unit :=
  modify (set_fs (λ s, {[path]} ∪ s)).

(** [fs.rmSync(path, { recursive: true })]. *)
Definition rmSync (path : string) : M unit :=
  modify (set_fs (λ s, s ∖ {[path]})).

Definition getInstance (instanceId : string) (m : Manager) : option nat :=
  instances m !! instanceId.

(** [this.instances.get(instanceId)?.client]. *)
Definition getClient (instanceId : string) (m : Manager) : option nat :=
  i ← instances m !! instanceId; client <$> objects m !! i.

(** [instance?.status ?? 'not_found']; [None] is ['not_found']. *)
Definition getStatus (instanceId : string) (m : Manager) : option Status :=
  i ← instances m !! instanceId; status <$> objects m !! i.

Definition getQRCode (instanceId : string) (m : Manager)
    : option string * option string :=
  match i ← instances m !! instanceId; objects m !! i with
  | Some i => (qrCode i, qrCodeBase64 i)
  | None => (None, None)
  end.

Definition not_found (instanceId : string) : Error :=
  mkError ("Instance " +:+ instanceId +:+ " not found").

Definition already_exists (instanceId : string) : Error :=
  mkError ("Instance " +:+ instanceId +:+ " already exists").

Definition not_connected (instanceId : string) : Error :=
  mkError ("Instance " +:+ instanceId +:+ " not connected").

Section Manager.

(** [env.waSessionPath] and Node's [path.join]. *)
Variable waSessionPath : string.
Variable path_join : string → string → string.

Definition sessionPathOf (instanceId : string) : string :=
  path_join waSessionPath instanceId.

Definition ensureSessionDir : M unit :=
  let* m := get in
  if negb (existsSync waSessionPath m) then mkdirSync waSessionPath
  else ret tt.

(** [new WhatsAppManager()] in a world with the given files and rows. *)
Definition new_manager (files : gset string) (rows : gmap string DbInstance)
    : Manager :=
  snd (ensureSessionDir (mkManager ∅ ∅ ∅ 0 files rows [] [] [])).

Definition createInstance (instanceId : string) : M nat :=
  let* m := get in
  match instances m !! instanceId with
  | Some _ => throw (already_exists instanceId)
  | None =>
      let sessionPath := sessionPathOf instanceId in
      let* client := new_ref in
      let* instance := new_ref in
      let* _ := modify (set_objects
                  (<[instance := mkWAInstance client instanceId Sdisconnected
                                   None None]>)) in
      let* _ := setupEventHandlers instance in
      let* _ := modify (set_instances (<[instanceId := instance]>)) in
      ret instance
  end.

Definition connect (instanceId : string) (initialized : Result unit) : M nat :=
  let* m := get in
  let* instance := match instances m !! instanceId with
                   | Some instance => ret instance
                   | None => createInstance instanceId
                   end in
  let* i := read instance in
  if decide (status i = Sconnected) then ret instance
  else
    let* _ := write instance (with_status Sconnecting) in
    let* _ := call (Cinitialize (client i)) initialized in
    ret instance.

Definition disconnect (instanceId : string) (destroyed : Result unit)
    (failure : option Error) : M unit :=
  let* m := get in
  match instances m !! instanceId with
  | None => throw (not_found instanceId)
  | Some instance =>
      let* i := read instance in
      let* _ := call (Cdestroy (client i)) destroyed in
      let* _ := write instance (with_status Sdisconnected) in
      updateInstanceStatus failure instanceId DISCONNECTED
  end.

Definition logout (instanceId : string) (logged_out destroyed : Result unit)
    (failure : option Error) : M unit :=
  let* m := get in
  match instances m !! instanceId with
  | None => throw (not_found instanceId)
  | Some instance =>
      let* i := read instance in
      let* _ := call (Clogout (client i)) logged_out in
      let* _ := call (Cdestroy (client i)) destroyed in
      let* _ := write instance (with_status Sdisconnected) in
      let sessionPath := sessionPathOf instanceId in
      let* m1 := get in
      let* _ := if existsSync sessionPath m1 then rmSync sessionPath
                else ret tt in
      let* _ := modify (set_instances (delete instanceId)) in
      updateInstanceStatus failure instanceId DISCONNECTED
  end.

Definition deleteInstance (instanceId : string) (destroyed : Result unit)
    : M unit :=
  let* m := get in
  let* _ := match instances m !! instanceId with
            | Some instance =>
                let* i := read instance in
                try_catch (call (Cdestroy (client i)) destroyed) (λ _, ret tt)
            | None => ret tt
            end in
  let sessionPath := sessionPathOf instanceId in
  let* m1 := get in
  let* _ := if existsSync sessionPath m1 then rmSync sessionPath
            else ret tt in
  modify (set_instances (delete instanceId)).

End Manager.

(** ** Send and query operations

    Each one starts with [const client = this.getClient(instanceId);
    if (!client) throw new Error(...)]. The answers of the protocol client
    (and of [MessageMedia.fromUrl]) are arguments. *)

Definition sendText (instanceId to text : string) (sent : Result Message)
    : M FormattedMessage :=
  let* m := get in
  match getClient instanceId m with
  | None => throw (not_connected instanceId)
  | Some client =>
      let chatId := formatNumber to in
      let* result := call (CsendMessage client chatId (ContentText text)) sent in
      ret (formatMessage result)
  end.

Definition sendMedia (instanceId to mediaUrl : string)
    (caption : option string) (fetched : Result MessageMedia)
    (sent : Result Message) : M FormattedMessage :=
  let* m := get in
  match getClient instanceId m with
  | None => throw (not_connected instanceId)
  | Some client =>
      let chatId := formatNumber to in
      let* media := await fetched in
      let* result :=
        call (CsendMessage client chatId (ContentMedia media caption)) sent in
      ret (formatMessage result)
  end.

Definition sendMediaBase64 (instanceId to base64 mimetype : string)
    (caption filename : option string) (sent : Result Message)
    : M FormattedMessage :=
  let* m := get in
  match getClient instanceId m with
  | None => throw (not_connected instanceId)
  | Some client =>
      let chatId := formatNumber to in
      let media := mkMessageMedia mimetype base64 filename in
      let* result :=
        call (CsendMessage client chatId (ContentMedia media caption)) sent in
      ret (formatMessage result)
  end.

Definition sendLocation (instanceId to : string) (latitude longitude : JsNumber)
    (description : option string) (sent : Result Message)
    : M FormattedMessage :=
  let* m := get in
  match getClient instanceId m with
  | None => throw (not_connected instanceId)
  | Some client =>
      let chatId := formatNumber to in
      let location := mkLocation latitude longitude description in
      let* result :=
        call (CsendMessage client chatId (ContentLocation location)) sent in
      ret (formatMessage result)
  end.

Definition sendContact (instanceId to contactId : string)
    (found : Result Contact) (sent : Result Message) : M FormattedMessage :=
  let* m := get in
  match getClient instanceId m with
  | None => throw (not_connected instanceId)
  | Some client =>
      let chatId := formatNumber to in
      let* contact :=
        call (CgetContactById client (formatNumber contactId)) found in
      let* result :=
        call (CsendMessage client chatId (ContentContact contact)) sent in
      ret (formatMessage result)
  end.

Definition reactToMessage (instanceId messageId reaction : string)
    (found : Result (option Message)) (reacted : Result unit) : M unit :=
  let* m := get in
  match getClient instanceId m with
  | None => throw (not_connected instanceId)
  | Some client =>
      let* msg := call (CgetMessageById client messageId) found in
      match msg with
      | None => throw (mkError "Message not found")
      | Some msg =>
          call (Creact client (msg_id_serialized msg) reaction) reacted
      end
  end.

Definition deleteMessage (instanceId messageId : string) (forEveryone : bool)
    (found : Result (option Message)) (deleted : Result unit) : M unit :=
  let* m := get in
  match getClient instanceId m with
  | None => throw (not_connected instanceId)
  | Some client =>
      let* msg := call (CgetMessageById client messageId) found in
      match msg with
      | None => throw (mkError "Message not found")
      | Some msg =>
          if forEveryone
          then call (Cdelete client (msg_id_serialized msg) true) deleted
          else call (Cdelete client (msg_id_serialized msg) false) deleted
      end
  end.

Definition markChatAsRead (instanceId chatId : string) (found : Result Chat)
    (seen : Result unit) : M unit :=
  let* m := get in
  match getClient instanceId m with
  | None => throw (not_connected instanceId)
  | Some client =>
      let* chat := call (CgetChatById client (formatNumber chatId)) found in
      call (CsendSeen client (chat_id chat)) seen
  end.

Definition blockContact (instanceId contactId : string)
    (found : Result Contact) (blocked : Result unit) : M unit :=
  let* m := get in
  match getClient instanceId m with
  | None => throw (not_connected instanceId)
  | Some client =>
      let* contact :=
        call (CgetContactById client (formatNumber contactId)) found in
      call (Cblock client (contact_id contact)) blocked
  end.

Definition leaveGroup (instanceId groupId : string) (found : Result Chat)
    (gone : Result unit) : M unit :=
  let* m := get in
  match getClient instanceId m with
  | None => throw (not_connected instanceId)
  | Some client =>
      let* chat := call (CgetChatById client groupId) found in
      if negb (isGroup chat) then throw (mkError "Not a group chat")
      else call (Cleave client (chat_id chat)) gone
  end.

(** A send or query operation with its arguments and the answers it gets. *)
Inductive Request :=
| ReqSendText (to text : string) (sent : Result Message)
| ReqSendMedia (to mediaUrl : string) (caption : option string)
    (fetched : Result MessageMedia) (sent : Result Message)
| ReqSendMediaBase64 (to base64 mimetype : string)
    (caption filename : option string) (sent : Result Message)
| ReqSendLocation (to : string) (latitude longitude : JsNumber)
    (description : option string) (sent : Result Message)
| ReqSendContact (to contactId : string) (found : Result Contact)
    (sent : Result Message)
| ReqReactToMessage (messageId reaction : string)
    (found : Result (option Message)) (reacted : Result unit)
| ReqDeleteMessage (messageId : string) (forEveryone : bool)
    (found : Result (option Message)) (deleted : Result unit)
| ReqMarkChatAsRead (chatId : string) (found : Result Chat)
    (seen : Result unit)
| ReqBlockContact (contactId : string) (found : Result Contact)
    (blocked : Result unit)
| ReqLeaveGroup (groupId : string) (found : Result Chat) (gone : Result unit).

(** What an operation resolves to. *)
Inductive Response := RespMessage (message : FormattedMessage) | RespVoid.

Definition perform (instanceId : string) (r : Request) : M Response :=
  match r with
  | ReqSendText to text sent =>
      let* x := sendText instanceId to text sent in ret (RespMessage x)
  | ReqSendMedia to mediaUrl caption fetched sent =>
      let* x := sendMedia instanceId to mediaUrl caption fetched sent in
      ret (RespMessage x)
  | ReqSendMediaBase64 to base64 mimetype caption filename sent =>
      let* x := sendMediaBase64 instanceId to base64 mimetype caption filename
                  sent in
      ret (RespMessage x)
  | ReqSendLocation to latitude longitude description sent =>
      let* x := sendLocation instanceId to latitude longitude description sent in
      ret (RespMessage x)
  | ReqSendContact to contactId found sent =>
      let* x := sendContact instanceId to contactId found sent in
      ret (RespMessage x)
  | ReqReactToMessage messageId reaction found reacted =>
      let* _ := reactToMessage instanceId messageId reaction found reacted in
      ret RespVoid
  | ReqDeleteMessage messageId forEveryone found deleted =>
      let* _ := deleteMessage instanceId messageId forEveryone found deleted in
      ret RespVoid
  | ReqMarkChatAsRead chatId found seen =>
      let* _ := markChatAsRead instanceId chatId found seen in ret RespVoid
  | ReqBlockContact contactId found blocked =>
      let* _ := blockContact instanceId contactId found blocked in ret RespVoid
  | ReqLeaveGroup groupId found gone =>
      let* _ := leaveGroup instanceId groupId found gone in ret RespVoid
  end.


(** ** The invariant of the object store

    Every object was allocated below [next_ref], and the references held
    by the registry and by the handlers have their objects. *)
Definition well_formed_parts (ins : gmap string nat)
    (objs : gmap nat WAInstance) (ls : gmap nat nat) (n : nat) : Prop :=
  (∀ r, is_Some (objs !! r) → r < n)
  ∧ (∀ k r, ins !! k = Some r → is_Some (objs !! r))
  ∧ (∀ c r, ls !! c = Some r → is_Some (objs !! r)).

Definition well_formed (m : Manager) : Prop :=
  well_formed_parts (instances m) (objects m) (listeners m) (next_ref m).

(** ** Events by name *)

(** [type WAEvent]. *)
Inductive WAEvent :=
| ev_qr | ev_ready | ev_authenticated | ev_auth_failure | ev_disconnected
| ev_message | ev_message_create | ev_message_ack
| ev_message_revoke_everyone | ev_group_join | ev_group_leave
| ev_group_update | ev_call.

(** The first argument of the [client.on(...)] that receives it. *)
Definition event_of_notification (n : Notification) : WAEvent :=
  match n with
  | on_qr _ => ev_qr
  | on_ready => ev_ready
  | on_authenticated => ev_authenticated
  | on_auth_failure _ => ev_auth_failure
  | on_disconnected _ => ev_disconnected
  | on_message _ => ev_message
  | on_message_create _ => ev_message_create
  | on_message_ack _ _ => ev_message_ack
  | on_message_revoke_everyone _ _ => ev_message_revoke_everyone
  | on_group_join _ => ev_group_join
  | on_group_leave _ => ev_group_leave
  | on_group_update _ => ev_group_update
  | on_call _ => ev_call
  end.

(** The first argument of the [this.emit(...)] that published it. *)
Definition event_of_emitted (e : Emitted) : WAEvent :=
  match e with
  | emit_qr _ _ _ => ev_qr
  | emit_ready _ _ => ev_ready
  | emit_authenticated _ => ev_authenticated
  | emit_auth_failure _ _ => ev_auth_failure
  | emit_disconnected _ _ => ev_disconnected
  | emit_message _ _ => ev_message
  | emit_message_create _ _ => ev_message_create
  | emit_message_ack _ _ _ => ev_message_ack
  | emit_message_revoke_everyone _ _ _ => ev_message_revoke_everyone
  | emit_group_join _ _ => ev_group_join
  | emit_group_leave _ _ => ev_group_leave
  | emit_group_update _ _ => ev_group_update
  | emit_call _ _ => ev_call
  end.

(** The [instanceId] of the payload. *)
Definition instanceId_of (e : Emitted) : string :=
  match e with
  | emit_qr i _ _ | emit_ready i _ | emit_authenticated i
  | emit_auth_failure i _ | emit_disconnected i _ | emit_message i _
  | emit_message_create i _ | emit_message_ack i _ _
  | emit_message_revoke_everyone i _ _ | emit_group_join i _
  | emit_group_leave i _ | emit_group_update i _ | emit_call i _ => i
  end.

(** The notifications whose handler only publishes (and, for
    ['authenticated'], logs). *)
Definition relayed (n : Notification) : bool :=
  match n with
  | on_qr _ | on_ready | on_auth_failure _ | on_disconnected _ => false
  | _ => true
  end.

(** The status column of a row, set. *)
Definition row_with_status (st : DbStatus) (row : DbInstance) : DbInstance :=
  mkDbInstance st (waNumber row) (waName row).

(** A command on [instanceId] that took [m] to [m'] left the registry
    entry of [other] and the objects of the other handles as they were. *)
Definition untouched (m m' : Manager) (instanceId other : string) : Prop :=
  instances m' !! other = instances m !! other
  ∧ ∀ r, is_Some (objects m !! r) → instances m !! instanceId ≠ Some r →
         objects m' !! r = objects m !! r.

(** ** The message routes

    The handlers of [modules/messages/messages.routes.ts], from the point
    where the body has been parsed by the route's schema: a handler gets
    the instance id that the token middleware stored and the parsed
    data. *)

(** The body of a successful answer: [{ success: true, data: result }] or
    [{ success: true, message }]. *)
Inductive JsonBody :=
| body_data (data : FormattedMessage)
| body_message (message : string).

(** What a handler does: it returns [c.json(body)] or throws an
    [HTTPException] with a status and a message. *)
Inductive Reply :=
| reply_json (body : JsonBody)
| reply_exception (status : nat) (message : string).

Definition Route : Type := Manager → Reply * Manager.

(** [try { const result = await operation; return c.json(body result) }
    catch (error) { throw new HTTPException(500, { message: ... }) }].
    What the manager and the protocol client throw is an [Error], so the
    message is [error.message]. *)
Definition answer {A} (operation : M A) (body : A → JsonBody) : Route :=
  λ m, match operation m with
       | (Ok result, m') => (reply_json (body result), m')
       | (Throw error, m') => (reply_exception 500 (message_of error), m')
       end.

(** The value is truthy: a string that is present and not empty. *)
Definition truthy (s : option string) : bool :=
  match s with
  | Some (String _ _) => true
  | _ => false
  end.

(** [z.infer<typeof textMessageSchema>]. *)
Record TextMessage := mkTextMessage { tm_to : string; tm_text : string }.

(** [z.infer<typeof mediaMessageSchema>]. *)
Record MediaMessage := mkMediaMessage {
  mm_to : string;
  mm_mediaUrl : option string;
  mm_base64 : option string;
  mm_mimetype : option string;
  mm_caption : option string;
  mm_filename : option string;
}.

(** The refinement of [mediaMessageSchema]:
    [data.mediaUrl || (data.base64 && data.mimetype)]. *)
Definition mediaMessageSchema_refinement (data : MediaMessage) : bool :=
  truthy (mm_mediaUrl data)
  || (truthy (mm_base64 data) && truthy (mm_mimetype data)).

Record LocationMessage := mkLocationMessage {
  lm_to : string;
  lm_latitude : JsNumber;
  lm_longitude : JsNumber;
  lm_description : option string;
}.

Record ContactMessage := mkContactMessage {
  cm_to : string;
  cm_contactId : string;
}.

Record Reaction := mkReaction { re_messageId : string; re_reaction : string }.

(** [z.infer<typeof deleteMessageSchema>]; the schema has filled in
    [forEveryone]. *)
Record DeleteMessage := mkDeleteMessage {
  dm_messageId : string;
  dm_forEveryone : bool;
}.

(** [POST /message/text]. *)
Definition post_text (instanceId : string) (data : TextMessage)
    (sent : Result Message) : Route :=
  answer (sendText instanceId (tm_to data) (tm_text data) sent) body_data.

(** [POST /message/media]. *)
Definition post_media (instanceId : string) (data : MediaMessage)
    (fetched : Result MessageMedia) (sent : Result Message) : Route :=
  if truthy (mm_mediaUrl data) then
    answer (sendMedia instanceId (mm_to data) (default "" (mm_mediaUrl data))
              (mm_caption data) fetched sent) body_data
  else if truthy (mm_base64 data) && truthy (mm_mimetype data) then
    answer (sendMediaBase64 instanceId (mm_to data)
              (default "" (mm_base64 data)) (default "" (mm_mimetype data))
              (mm_caption data) (mm_filename data) sent) body_data
  else
    answer (throw (mkError "Invalid media data")) body_data.

(** [POST /message/location]. *)
Definition post_location (instanceId : string) (data : LocationMessage)
    (sent : Result Message) : Route :=
  answer (sendLocation instanceId (lm_to data) (lm_latitude data)
            (lm_longitude data) (lm_description data) sent) body_data.

(** [POST /message/contact]. *)
Definition post_contact (instanceId : string) (data : ContactMessage)
    (found : Result Contact) (sent : Result Message) : Route :=
  answer (sendContact instanceId (cm_to data) (cm_contactId data) found sent)
    body_data.

(** [POST /message/react]. *)
Definition post_react (instanceId : string) (data : Reaction)
    (found : Result (option Message)) (reacted : Result unit) : Route :=
  answer (reactToMessage instanceId (re_messageId data) (re_reaction data)
            found reacted)
    (λ _, body_message "Reaction sent successfully").

(** [POST /message/delete]. *)
Definition post_delete (instanceId : string) (data : DeleteMessage)
    (found : Result (option Message)) (deleted : Result unit) : Route :=
  answer (deleteMessage instanceId (dm_messageId data) (dm_forEveryone data)
            found deleted)
    (λ _, body_message "Message deleted successfully").

(** [POST /message/read]. *)
Definition post_read (instanceId chatId : string) (found : Result Chat)
    (seen : Result unit) : Route :=
  answer (markChatAsRead instanceId chatId found seen)
    (λ _, body_message "Chat marked as read").

(** A request to one of the routes, with what the collaborators answer. *)
Inductive MessageRequest :=
| PostText (data : TextMessage) (sent : Result Message)
| PostMedia (data : MediaMessage) (fetched : Result MessageMedia)
    (sent : Result Message)
| PostLocation (data : LocationMessage) (sent : Result Message)
| PostContact (data : ContactMessage) (found : Result Contact)
    (sent : Result Message)
| PostReact (data : Reaction) (found : Result (option Message))
    (reacted : Result unit)
| PostDelete (data : DeleteMessage) (found : Result (option Message))
    (deleted : Result unit)
| PostRead (chatId : string) (found : Result Chat) (seen : Result unit).

Definition serve (instanceId : string) (r : MessageRequest) : Route :=
  match r with
  | PostText data sent => post_text instanceId data sent
  | PostMedia data fetched sent => post_media instanceId data fetched sent
  | PostLocation data sent => post_location instanceId data sent
  | PostContact data found sent => post_contact instanceId data found sent
  | PostReact data found reacted => post_react instanceId data found reacted
  | PostDelete data found deleted => post_delete instanceId data found deleted
  | PostRead chatId found seen => post_read instanceId chatId found seen
  end.

(** The parsed data passed the refinement of its schema. *)
Definition refined (r : MessageRequest) : bool :=
  match r with
  | PostMedia data _ _ => mediaMessageSchema_refinement data
  | _ => true
  end.

(** ** The authentication routes

    The handlers of [modules/auth/auth.routes.ts], from the point where
    the body has been parsed. The table of users is the list of its rows;
    [prisma.user.findUnique] on the unique column [email] is the first row
    with that email. What [bcrypt.hash] returned, and the id and the role
    that [prisma.user.create] gave the new row, are arguments. *)

Record User := mkUser {
  user_id : string;
  user_email : string;
  user_password : string;
  user_name : option string;
  user_role : string;
}.

(** [z.infer<typeof registerSchema>] and [z.infer<typeof loginSchema>]. *)
Record RegisterData := mkRegisterData {
  reg_email : string;
  reg_password : string;
  reg_name : option string;
}.

Record LoginData := mkLoginData {
  login_email : string;
  login_password : string;
}.

(** The [user] object and the [token] of a successful answer. *)
Record Session := mkSession {
  ses_id : string;
  ses_email : string;
  ses_name : option string;
  ses_role : string;
  ses_token : string;
}.

Inductive AuthReply :=
| auth_json (data : Session)
| auth_exception (status : nat) (message : string).

Definition findUnique_email (email : string) (users : list User)
    : option User :=
  List.find (λ u, String.eqb (user_email u) email) users.

Section Auth.

(** [bcrypt.compare(password, hash)] and [generateToken] of
    [middlewares/auth.js], on [userId], [email] and [role]. *)
Variable bcrypt_compare : string → string → bool.
Variable generateToken : string → string → string → string.

Definition session_of (user : User) : Session :=
  mkSession (user_id user) (user_email user) (user_name user)
    (user_role user)
    (generateToken (user_id user) (user_email user) (user_role user)).

(** [POST /auth/register]. *)
Definition register (data : RegisterData) (hashedPassword new_id role : string)
    (users : list User) : AuthReply * list User :=
  match findUnique_email (reg_email data) users with
  | Some existingUser =>
      (auth_exception 400 "Email already registered", users)
  | None =>
      let user := mkUser new_id (reg_email data) hashedPassword
                    (reg_name data) role in
      (auth_json (session_of user), users ++ [user])
  end.

(** [POST /auth/login]. *)
Definition login (data : LoginData) (users : list User) : AuthReply :=
  match findUnique_email (login_email data) users with
  | None => auth_exception 401 "Invalid credentials"
  | Some user =>
      if negb (bcrypt_compare (login_password data) (user_password user))
      then auth_exception 401 "Invalid credentials"
      else auth_json (session_of user)
  end.

End Auth.

(** ** The invariant of the registry

    Besides the invariant of the object store: the object registered
    under an id carries that id, and the handlers installed on its client
    are its own. *)
Definition coherent_parts (ins : gmap string nat)
    (objs : gmap nat WAInstance) (ls : gmap nat nat) (n : nat) : Prop :=
  well_formed_parts ins objs ls n
  ∧ ∀ k r, ins !! k = Some r →
           ∃ i, objs !! r = Some i ∧ id i = k ∧ ls !! client i = Some r
                ∧ client i < n.

Definition coherent (m : Manager) : Prop :=
  coherent_parts (instances m) (objects m) (listeners m) (next_ref m).

(** ** A sample world *)

(** [path.join] on a directory and a plain segment. *)
Definition plain_join (dir segment : string) : string :=
  dir +:+ "/" +:+ segment.

Definition sample_row : DbInstance := mkDbInstance DISCONNECTED None None.

(** A manager started with session directory [/sessions], where the
    credentials of instance [A] are left from an earlier run, and a
    repository with one row, for [A]. *)
Definition sample_manager : Manager :=
  new_manager "/sessions" {["/sessions"; "/sessions/A"]} {["A" := sample_row]}.

Definition sample_info : ClientInfo := mkClientInfo "5511999999999" "Ana".

(** Collaborators that answer; the QR renderer prefixes its input. *)
Definition sample_external : External :=
  mkExternal (λ qr, Ok ("data:image/png;base64," +:+ qr)) sample_info None.

(** The same collaborators with a repository that fails. *)
Definition sample_external_db_down : External :=
  mkExternal (λ qr, Ok ("data:image/png;base64," +:+ qr)) sample_info
    (Some (mkError "Can't reach database server")).

Definition sample_message : Message :=
  mkMessage "true_5511888888888@c.us_3EB0" "5511999999999@c.us"
    "5511888888888@c.us" "hello" "chat" 1700000000 false false false true
    false false.

(** The sample manager after [connect("A")]. *)
Definition sample_connecting : Manager :=
  snd (connect "/sessions" plain_join "A" (Ok tt) sample_manager).

(** ... after the client of [A] (object 0) emitted [qr]. *)
Definition sample_awaiting_scan : Manager :=
  snd (notify 0 (on_qr "2@abc") sample_external sample_connecting).

(** ... and after it then emitted [ready]. *)
Definition sample_connected : Manager :=
  snd (notify 0 on_ready sample_external sample_awaiting_scan).

(** ... after [disconnect("A")] on the connected instance. *)
Definition sample_disconnected : Manager :=
  snd (disconnect "A" (Ok tt) None sample_connected).

(** ... after [logout("A")] on the connected instance. *)
Definition sample_logged_out : Manager :=
  snd (logout "/sessions" plain_join "A" (Ok tt) (Ok tt) None sample_connected).

(** * Properties *)

(** ** Address normalization *)

(** The cleaned value is the list of the digits of the input, in order. *)
Lemma replace_non_digits_filter (s : string) :
  replace_non_digits s
  = string_of_list_ascii (List.filter is_digit (list_ascii_of_string s)).
Proof.
  induction s as [|c rest IH]; simpl; [reflexivity|].
  destruct (is_digit c); simpl; rewrite IH; reflexivity.
Qed.

(** C9: a bare number (no [@] in it, no [-] left among its digits) is
    normalized to its digits, in order, followed by [@c.us]; every other
    character is stripped. *)
Theorem formatNumber_bare_number (number : string) :
  includes number "@" = false →
  includes (replace_non_digits number) "-" = false →
  formatNumber number
  = string_of_list_ascii (List.filter is_digit (list_ascii_of_string number))
    +:+ "@c.us".
Proof.
  intros _ _. rewrite formatNumber_digits, replace_non_digits_filter.
  reflexivity.
Qed.

Lemma formatNumber_bare_number_example :
  formatNumber "+55 11 99999-9999" = "5511999999999@c.us".
Proof.
  exact (formatNumber_bare_number "+55 11 99999-9999" eq_refl eq_refl).
Defined.

(** C10: normalizing a normalized address changes nothing. *)
Theorem formatNumber_idempotent (s : string) :
  formatNumber (formatNumber s) = formatNumber s.
Proof.
  rewrite !formatNumber_digits, replace_non_digits_app.
  rewrite (replace_non_digits_id (replace_non_digits s))
    by apply all_digits_replace_non_digits.
  change (replace_non_digits "@c.us") with "". rewrite app_empty_r.
  reflexivity.
Qed.

(** C3: [formatNumber] removes the separator [-] and the [@] together with
    the other non-digits before it looks for them, so a group address gets
    the suffix [@c.us], and an address that carries [@g.us] is rewritten to
    end in [@c.us]: the group branch and the pass-through branch are
    never taken. *)
Theorem formatNumber_group_address :
  formatNumber "1203630-1234567890" = "12036301234567890@c.us"
  ∧ formatNumber "1203630-1234567890@g.us" = "12036301234567890@c.us"
  ∧ ∀ number,
      includes (replace_non_digits number) "-" = false
      ∧ includes (replace_non_digits number) "@" = false
      ∧ formatNumber number = replace_non_digits number +:+ "@c.us".
Proof.
  split; [reflexivity|]. split; [reflexivity|].
  intros number. pose proof (all_digits_replace_non_digits number) as Hd.
  split; [|split].
  - apply includes_char_all_digits; [reflexivity|exact Hd].
  - apply includes_char_all_digits; [reflexivity|exact Hd].
  - apply formatNumber_digits.
Qed.

(** ** Lifecycle commands *)

(** Unfolds the monad so that a method becomes a term on the state. *)
Ltac run :=
  repeat progress
    (unfold bind, get, ret, throw, modify, await, try_catch, call, emit,
       logger, write, read, new_ref, rmSync, mkdirSync in *; simpl in *).

Lemma updateInstanceStatus_resolves (failure : option Error)
    (instanceId : string) (st : DbStatus) (m : Manager) :
  fst (updateInstanceStatus failure instanceId st m) = Ok tt.
Proof.
  unfold updateInstanceStatus, prisma_instance_update. run.
  destruct failure; [reflexivity|]. destruct (db m !! instanceId); reflexivity.
Qed.

(** [updateInstanceStatus] touches the repository and the log only. *)
Lemma updateInstanceStatus_frame (failure : option Error)
    (instanceId : string) (st : DbStatus) (m : Manager) :
  let m' := snd (updateInstanceStatus failure instanceId st m) in
  instances m' = instances m ∧ objects m' = objects m ∧ fs m' = fs m
  ∧ calls m' = calls m ∧ emitted m' = emitted m ∧ next_ref m' = next_ref m
  ∧ listeners m' = listeners m.
Proof.
  unfold updateInstanceStatus, prisma_instance_update. run.
  destruct failure; [done|]. destruct (db m !! instanceId); done.
Qed.

(** ** The invariant of the object store is kept *)

Lemma well_formed_alter ins objs ls n f r :
  well_formed_parts ins objs ls n →
  well_formed_parts ins (alter f r objs) ls n.
Proof.
  intros (Hlt & Hins & Hls). split; [|split].
  - intros x Hx. apply Hlt. by apply lookup_alter_is_Some in Hx.
  - intros k x Hk. apply lookup_alter_is_Some. eauto.
  - intros c x Hc. apply lookup_alter_is_Some. eauto.
Qed.

Lemma well_formed_delete ins objs ls n k :
  well_formed_parts ins objs ls n →
  well_formed_parts (delete k ins) objs ls n.
Proof.
  intros (Hlt & Hins & Hls). split; [exact Hlt|]. split; [|exact Hls].
  intros k' x Hk. apply lookup_delete_Some in Hk as [_ Hk]. eauto.
Qed.

Lemma well_formed_create ins objs ls n k i :
  well_formed_parts ins objs ls n →
  well_formed_parts (<[k := S n]> ins) (<[S n := i]> objs)
    (<[n := S n]> ls) (S (S n)).
Proof.
  intros (Hlt & Hins & Hls). split; [|split].
  - intros x Hx. apply lookup_insert_is_Some in Hx as [<-|[_ Hx]]; [lia|].
    apply Hlt in Hx. lia.
  - intros k' x Hk. apply lookup_insert_is_Some.
    apply lookup_insert_Some in Hk as [[_ <-]|[_ Hk]]; [by left|].
    destruct (decide (S n = x)); [by left|right; eauto].
  - intros c x Hc. apply lookup_insert_is_Some.
    apply lookup_insert_Some in Hc as [[_ <-]|[_ Hc]]; [by left|].
    destruct (decide (S n = x)); [by left|right; eauto].
Qed.

Lemma well_formed_empty : well_formed_parts ∅ ∅ ∅ 0.
Proof.
  split; [|split].
  - intros r [x Hx]. by rewrite lookup_empty in Hx.
  - intros k r Hk. by rewrite lookup_empty in Hk.
  - intros c r Hc. by rewrite lookup_empty in Hc.
Qed.

Create HintDb wf.
#[local] Hint Resolve well_formed_empty well_formed_alter well_formed_delete
  well_formed_create : wf.

(** Splits on the innermost scrutinee of the goal, as long as there is one. *)
Ltac cases :=
  repeat match goal with
         | |- context [match ?x with _ => _ end] =>
             lazymatch x with
             | context [match _ with _ => _ end] => fail
             | _ => destruct x eqn:?; simpl
             end
         end.

Ltac preserve :=
  unfold well_formed in *; run; cases; eauto 10 with wf.

(** The invariant holds when the manager is constructed, and every command,
    notification and operation keeps it. *)
Lemma well_formed_new_manager dir files rows :
  well_formed (new_manager dir files rows).
Proof.
  unfold new_manager, ensureSessionDir. preserve.
Qed.

Lemma well_formed_updateInstanceStatus failure instanceId st m :
  well_formed m →
  well_formed (snd (updateInstanceStatus failure instanceId st m)).
Proof.
  intros H. unfold updateInstanceStatus, prisma_instance_update. preserve.
Qed.

(** [createInstance] on an id the registry does not hold. *)

Lemma createInstance_unregistered dir join instanceId m :
  instances m !! instanceId = None →
  createInstance dir join instanceId m
  = (Ok (S (next_ref m)),
     mkManager (<[instanceId := S (next_ref m)]> (instances m))
       (<[S (next_ref m) := mkWAInstance (next_ref m) instanceId Sdisconnected
                              None None]> (objects m))
       (<[next_ref m := S (next_ref m)]> (listeners m)) (S (S (next_ref m)))
       (fs m) (db m) (calls m) (emitted m) (logs m)).
Proof.
  intros Habsent. unfold createInstance, setupEventHandlers. run.
  rewrite Habsent. simpl. rewrite lookup_insert_eq. reflexivity.
Qed.

Lemma well_formed_createInstance dir join instanceId m :
  well_formed m → well_formed (snd (createInstance dir join instanceId m)).
Proof.
  intros H. destruct (instances m !! instanceId) eqn:Hreg.
  - unfold createInstance. run. rewrite Hreg. exact H.
  - rewrite createInstance_unregistered by exact Hreg. preserve.
Qed.

Lemma well_formed_connect dir join instanceId initialized m :
  well_formed m → well_formed (snd (connect dir join instanceId initialized m)).
Proof.
  intros H. unfold connect. run.
  destruct (instances m !! instanceId) eqn:Hreg; simpl;
    [|rewrite createInstance_unregistered by exact Hreg; simpl;
      rewrite lookup_insert_eq; simpl];
    preserve.
Qed.

Lemma well_formed_disconnect instanceId destroyed failure m :
  well_formed m → well_formed (snd (disconnect instanceId destroyed failure m)).
Proof.
  intros H. unfold disconnect, updateInstanceStatus, prisma_instance_update.
  preserve.
Qed.

Lemma well_formed_logout dir join instanceId logged_out destroyed failure m :
  well_formed m →
  well_formed (snd (logout dir join instanceId logged_out destroyed failure m)).
Proof.
  intros H. unfold logout, updateInstanceStatus, prisma_instance_update.
  preserve.
Qed.

Lemma well_formed_deleteInstance dir join instanceId destroyed m :
  well_formed m →
  well_formed (snd (deleteInstance dir join instanceId destroyed m)).
Proof. intros H. unfold deleteInstance. preserve. Qed.

Lemma well_formed_notify c n ext m :
  well_formed m → well_formed (snd (notify c n ext m)).
Proof.
  intros H.
  unfold notify, handler, updateInstanceStatus, prisma_instance_update.
  destruct n; preserve.
Qed.

(** The send and query operations write nothing but the trace of calls: in
    particular they leave every status as it is. *)
Lemma perform_frame instanceId req m :
  let m' := snd (perform instanceId req m) in
  instances m' = instances m ∧ objects m' = objects m
  ∧ listeners m' = listeners m ∧ next_ref m' = next_ref m
  ∧ fs m' = fs m ∧ db m' = db m ∧ emitted m' = emitted m ∧ logs m' = logs m.
Proof.
  unfold perform, sendText, sendMedia, sendMediaBase64, sendLocation,
    sendContact, reactToMessage, deleteMessage, markChatAsRead, blockContact,
    leaveGroup.
  destruct req; run; cases; done.
Qed.

Lemma well_formed_perform instanceId req m :
  well_formed m → well_formed (snd (perform instanceId req m)).
Proof.
  intros H.
  destruct (perform_frame instanceId req m) as (Hi & Ho & Hl & Hn & _).
  unfold well_formed in *. by rewrite Hi, Ho, Hl, Hn.
Qed.

Section ManagerFacts.

Context (waSessionPath : string) (path_join : string → string → string).

(** C7: [connect] on an instance whose handle has status ['connected']
    returns that handle and leaves the manager as it was: nothing is
    written, and no call (so no second [initialize]) reaches the client. *)
Theorem connect_connected_idempotent (instanceId : string) (instance : nat)
    (i : WAInstance) (initialized : Result unit) (m : Manager) :
  instances m !! instanceId = Some instance →
  objects m !! instance = Some i →
  status i = Sconnected →
  connect waSessionPath path_join instanceId initialized m = (Ok instance, m).
Proof.
  intros Hreg Hobj Hst. unfold connect. run.
  rewrite Hreg, Hobj. rewrite decide_True by exact Hst. reflexivity.
Qed.


(** What [logout] did when it resolved. *)
Lemma logout_resolved (instanceId : string) (logged_out destroyed : Result unit)
    (failure : option Error) (m m' : Manager) :
  logout waSessionPath path_join instanceId logged_out destroyed failure m
  = (Ok tt, m') →
  ∃ instance i,
    instances m !! instanceId = Some instance
    ∧ objects m !! instance = Some i
    ∧ instances m' = delete instanceId (instances m)
    ∧ objects m' = alter (with_status Sdisconnected) instance (objects m)
    ∧ listeners m' = listeners m
    ∧ next_ref m' = next_ref m
    ∧ fs m' = fs m ∖ {[sessionPathOf waSessionPath path_join instanceId]}
    ∧ calls m' = calls m ++ [Clogout (client i); Cdestroy (client i)].
Proof.
  intros Hlogout. unfold logout in Hlogout. run.
  destruct (instances m !! instanceId) as [instance|]; [|discriminate].
  destruct (objects m !! instance) as [i|] eqn:Hobj; [|discriminate].
  destruct logged_out; [|discriminate]. destruct destroyed; [|discriminate].
  simpl in Hlogout. exists instance, i.
  destruct (existsSync _ _) eqn:Hex in Hlogout; run.
  all: unfold existsSync in Hex; simpl in Hex.
  all:
    match type of Hlogout with
    | context [updateInstanceStatus ?f ?x ?s ?m0] =>
        pose proof (updateInstanceStatus_frame f x s m0) as Hframe;
        destruct (updateInstanceStatus f x s m0) as [res m1]
    end.
  all: simpl in Hframe;
    destruct Hframe as (Hi & Ho & Hf & Hc & _ & Hn & Hl).
  all: injection Hlogout as _ ->; rewrite Hi, Ho, Hf, Hc, Hn, Hl.
  all: rewrite <- app_assoc; repeat split; try reflexivity; try exact Hobj.
  apply bool_decide_eq_false in Hex. symmetry.
  apply difference_disjoint_L, disjoint_singleton_r, Hex.
Qed.

(** C6: when [logout] resolves, the session directory of the id does not
    exist and the registry does not hold the id; [connect] on the id then
    goes through [createInstance]: it registers a new object (not in the
    store before, and not the handle that was logged out) with a new
    client, no QR fields and status ['connecting'], installs the handlers
    and calls [initialize] on that new client. *)
Theorem logout_then_connect_creates_handle (instanceId : string)
    (logged_out destroyed : Result unit) (failure : option Error)
    (m m' : Manager) :
  well_formed m →
  logout waSessionPath path_join instanceId logged_out destroyed failure m
  = (Ok tt, m') →
  existsSync (sessionPathOf waSessionPath path_join instanceId) m' = false
  ∧ instances m' !! instanceId = None
  ∧ ∀ initialized,
      let r := connect waSessionPath path_join instanceId initialized m' in
      let client := next_ref m' in
      let handle := S (next_ref m') in
      fst r = match initialized with
              | Ok _ => Ok handle
              | Throw e => Throw e
              end
      ∧ objects m' !! handle = None
      ∧ instances m !! instanceId ≠ Some handle
      ∧ instances (snd r) !! instanceId = Some handle
      ∧ objects (snd r) !! handle
        = Some (mkWAInstance client instanceId Sconnecting None None)
      ∧ listeners (snd r) !! client = Some handle
      ∧ calls (snd r) = calls m' ++ [Cinitialize client].
Proof.
  intros (Hlt & Hins & _) Hlogout.
  destruct (logout_resolved _ _ _ _ _ _ Hlogout)
    as (instance & i & Hreg & Hobj & Hi & Ho & _ & Hn & Hf & _).
  assert (instances m' !! instanceId = None) as Habsent
    by (rewrite Hi; apply lookup_delete_eq).
  split; [|split; [exact Habsent|]].
  { unfold existsSync. rewrite Hf. apply bool_decide_eq_false.
    intros [_ Hx]%elem_of_difference. apply Hx, elem_of_singleton.
    reflexivity. }
  intros initialized. unfold connect. run. rewrite Habsent. simpl.
  rewrite createInstance_unregistered by exact Habsent. simpl.
  rewrite lookup_insert_eq. simpl.
  assert (objects m' !! S (next_ref m') = None) as Hnew.
  { rewrite Ho, Hn. destruct (alter _ _ _ !! _) eqn:Hx; [|reflexivity].
    assert (is_Some (objects m !! S (next_ref m))) as Hsome
      by (eapply lookup_alter_is_Some; rewrite Hx; eauto).
    apply Hlt in Hsome. lia. }
  assert (instances m !! instanceId ≠ Some (S (next_ref m'))) as Hold.
  { rewrite Hreg, Hn. intros [= ->].
    assert (is_Some (objects m !! S (next_ref m))) as Hsome by eauto.
    apply Hlt in Hsome. lia. }
  destruct initialized as [[]|e]; simpl;
    rewrite ?lookup_alter_eq, ?lookup_insert_eq; done.
Qed.

End ManagerFacts.

Lemma connect_connected_idempotent_sample :
  connect "/sessions" plain_join "A" (Ok tt) sample_connected
  = (Ok 1, sample_connected).
Proof.
  apply (connect_connected_idempotent "/sessions" plain_join "A" 1
           (mkWAInstance 0 "A" Sconnected None None));
    vm_compute; reflexivity.
Defined.


Lemma logout_then_connect_sample :
  existsSync "/sessions/A" sample_connected = true
  ∧ existsSync "/sessions/A" sample_logged_out = false
  ∧ instances sample_logged_out !! "A" = None
  ∧ fst (connect "/sessions" plain_join "A" (Ok tt) sample_logged_out) = Ok 3.
Proof.
  assert (logout "/sessions" plain_join "A" (Ok tt) (Ok tt) None
            sample_connected = (Ok tt, sample_logged_out)) as Hlogout
    by (vm_compute; reflexivity).
  assert (well_formed sample_connected) as Hwf
    by apply well_formed_notify, well_formed_notify, well_formed_connect,
         well_formed_new_manager.
  destruct (logout_then_connect_creates_handle "/sessions" plain_join "A"
              (Ok tt) (Ok tt) None sample_connected sample_logged_out Hwf
              Hlogout)
    as (Hfs & Hreg & Hconnect).
  split; [vm_compute; reflexivity|]. split; [exact Hfs|].
  split; [exact Hreg|]. apply (Hconnect (Ok tt)).
Defined.

(** ** Teardown and persistence failures *)

(** A rejection of [client.logout()] or of [client.destroy()] is the
    outcome of [logout]; only the calls made so far were recorded. *)
Lemma logout_teardown_rejection_propagates (dir : string)
    (join : string → string → string) (instanceId : string) (instance : nat)
    (i : WAInstance) (e : Error) (failure : option Error) (m : Manager) :
  instances m !! instanceId = Some instance →
  objects m !! instance = Some i →
  (∀ destroyed,
     logout dir join instanceId (Throw e) destroyed failure m
     = (Throw e, set_calls (λ l, l ++ [Clogout (client i)]) m))
  ∧ logout dir join instanceId (Ok tt) (Throw e) failure m
    = (Throw e,
       set_calls (λ l, l ++ [Cdestroy (client i)])
         (set_calls (λ l, l ++ [Clogout (client i)]) m)).
Proof.
  intros Hreg Hobj. split; [intros destroyed|]; unfold logout; run;
    rewrite Hreg; simpl; rewrite Hobj; reflexivity.
Qed.

(** C4: [logout] awaits [client.logout()] and [client.destroy()] outside
    any [try]: when either rejects, [logout] rejects with the same error,
    the session directory is still there, the registry still holds the
    instance with the status it had, and the row keeps its status.
    [deleteInstance], which wraps [destroy] in [try]/[catch], goes on. *)
Theorem logout_rejects_when_teardown_rejects :
  let closed := mkError "Session closed" in
  let r1 := logout "/sessions" plain_join "A" (Throw closed) (Ok tt) None
              sample_connected in
  let r2 := logout "/sessions" plain_join "A" (Ok tt) (Throw closed) None
              sample_connected in
  let r3 := deleteInstance "/sessions" plain_join "A" (Throw closed)
              sample_connected in
  (fst r1 = Throw closed
   ∧ existsSync "/sessions/A" (snd r1) = true
   ∧ instances (snd r1) !! "A" = Some 1
   ∧ getStatus "A" (snd r1) = Some Sconnected
   ∧ db_status <$> db (snd r1) !! "A" = Some CONNECTED)
  ∧ (fst r2 = Throw closed
     ∧ existsSync "/sessions/A" (snd r2) = true
     ∧ instances (snd r2) !! "A" = Some 1
     ∧ getStatus "A" (snd r2) = Some Sconnected
     ∧ db_status <$> db (snd r2) !! "A" = Some CONNECTED)
  ∧ (fst r3 = Ok tt
     ∧ existsSync "/sessions/A" (snd r3) = false
     ∧ instances (snd r3) !! "A" = None).
Proof. vm_compute. repeat split; reflexivity. Qed.

(** The handlers that persist through [updateInstanceStatus] resolve
    whatever the repository does. *)
Lemma status_handlers_contain_repository_failure (instance : nat)
    (id : string) (ext : External) (m : Manager) :
  (∀ msg, fst (handler instance id (on_auth_failure msg) ext m) = Ok tt)
  ∧ (∀ reason, fst (handler instance id (on_disconnected reason) ext m) = Ok tt).
Proof.
  split; intros x; unfold handler; run;
    match goal with
    | |- context [updateInstanceStatus ?f ?i ?s ?m0] =>
        pose proof (updateInstanceStatus_resolves f i s m0) as Hup;
        destruct (updateInstanceStatus f i s m0) as [res m1]
    end; simpl in Hup; subst res; reflexivity.
Qed.

(** The ['ready'] handler rejects with the error of the repository, after
    its writes to the instance and before it publishes. *)
Lemma ready_handler_repository_failure (instance : nat) (instanceId : string)
    (ext : External) (e : Error) (m : Manager) :
  db_failure ext = Some e →
  let r := handler instance instanceId on_ready ext m in
  fst r = Throw e
  ∧ emitted (snd r) = emitted m
  ∧ objects (snd r)
    = alter (with_qrCodeBase64 None)
        instance
        (alter (with_qrCode None) instance
           (alter (with_status Sconnected) instance (objects m))).
Proof.
  intros Hdown. unfold handler, prisma_instance_update. run. rewrite Hdown.
  simpl. done.
Qed.

(** C5: the ['ready'] handler awaits [prisma.instance.update] outside any
    [try]: when the repository fails, the handler rejects with that error,
    nothing is logged about it and ['ready'] is not published. What the
    handler wrote in memory stays (status ['connected'], QR fields
    cleared). The handlers of ['qr'], ['auth_failure'] and ['disconnected']
    go through [updateInstanceStatus]: they resolve, log the failure and
    publish. *)
Theorem ready_handler_rejects_on_repository_failure :
  let down := mkError "Can't reach database server" in
  let failed := mkLogEntry Lerror "A" (Some "Can't reach database server")
                  "Failed to update instance status" in
  let r := notify 0 on_ready sample_external_db_down sample_awaiting_scan in
  let q := notify 0 (on_qr "2@def") sample_external_db_down
             sample_awaiting_scan in
  let f := notify 0 (on_auth_failure "timeout") sample_external_db_down
             sample_awaiting_scan in
  let d := notify 0 (on_disconnected "LOGOUT") sample_external_db_down
             sample_awaiting_scan in
  (fst r = Throw down
   ∧ emitted (snd r) = emitted sample_awaiting_scan
   ∧ logs (snd r)
     = logs sample_awaiting_scan
       ++ [mkLogEntry Linfo "A" (Some "5511999999999") "WhatsApp connected"]
   ∧ getStatus "A" (snd r) = Some Sconnected
   ∧ getQRCode "A" (snd r) = (None, None))
  ∧ (fst q = Ok tt ∧ last (logs (snd q)) = Some failed
     ∧ getStatus "A" (snd q) = Some Sqr)
  ∧ (fst f = Ok tt ∧ last (logs (snd f)) = Some failed
     ∧ last (emitted (snd f)) = Some (emit_auth_failure "A" "timeout")
     ∧ getStatus "A" (snd f) = Some Sdisconnected)
  ∧ (fst d = Ok tt ∧ last (logs (snd d)) = Some failed
     ∧ last (emitted (snd d)) = Some (emit_disconnected "A" "LOGOUT")
     ∧ getStatus "A" (snd d) = Some Sdisconnected).
Proof. vm_compute. repeat split; reflexivity. Qed.

(** ** The QR fields *)

(** The ['ready'] handler clears both QR fields. *)
Lemma ready_clears_qr_fields (instance : nat) (instanceId : string)
    (ext : External) (m : Manager) (i : WAInstance) :
  objects m !! instance = Some i →
  objects (snd (handler instance instanceId on_ready ext m)) !! instance
  = Some (mkWAInstance (client i) (id i) Sconnected None None).
Proof.
  intros Hobj. unfold handler, prisma_instance_update. run.
  destruct (db_failure ext); [|destruct (db m !! instanceId)]; simpl;
    rewrite !lookup_alter_eq, Hobj; reflexivity.
Qed.

(** The handlers of ['auth_failure'] and ['disconnected'] write the status
    of the instance and no other field of it. *)
Lemma disconnection_handlers_write_status_only (instance : nat)
    (instanceId : string) (ext : External) (m : Manager) :
  (∀ msg,
     objects (snd (handler instance instanceId (on_auth_failure msg) ext m))
     = alter (with_status Sdisconnected) instance (objects m))
  ∧ (∀ reason,
       objects (snd (handler instance instanceId (on_disconnected reason) ext m))
       = alter (with_status Sdisconnected) instance (objects m)).
Proof.
  split; intros x; unfold handler; run;
    match goal with
    | |- context [updateInstanceStatus ?f ?k ?s ?m0] =>
        pose proof (updateInstanceStatus_frame f k s m0) as Hframe;
        pose proof (updateInstanceStatus_resolves f k s m0) as Hup;
        destruct (updateInstanceStatus f k s m0) as [res m1]
    end; simpl in Hframe, Hup; subst res; simpl;
    destruct Hframe as (_ & -> & _); reflexivity.
Qed.

(** C1: only the ['ready'] handler clears [qrCode] and [qrCodeBase64]. The
    handlers of ['auth_failure'] and ['disconnected'] and the [disconnect]
    command set the status to ['disconnected'] and leave both fields as
    the ['qr'] handler set them; so does [connect], which sets
    ['connecting']. *)
Theorem qr_fields_outlive_awaiting_scan :
  let challenge := (Some "2@abc", Some "data:image/png;base64,2@abc") in
  let f := snd (notify 0 (on_auth_failure "timeout") sample_external
                  sample_awaiting_scan) in
  let d := snd (notify 0 (on_disconnected "NAVIGATION") sample_external
                  sample_awaiting_scan) in
  let c := snd (disconnect "A" (Ok tt) None sample_awaiting_scan) in
  let n := snd (connect "/sessions" plain_join "A" (Ok tt)
                  sample_awaiting_scan) in
  (getStatus "A" sample_awaiting_scan = Some Sqr
   ∧ getQRCode "A" sample_awaiting_scan = challenge)
  ∧ (getStatus "A" sample_connected = Some Sconnected
     ∧ getQRCode "A" sample_connected = (None, None))
  ∧ (getStatus "A" f = Some Sdisconnected ∧ getQRCode "A" f = challenge)
  ∧ (getStatus "A" d = Some Sdisconnected ∧ getQRCode "A" d = challenge)
  ∧ (getStatus "A" c = Some Sdisconnected ∧ getQRCode "A" c = challenge)
  ∧ (getStatus "A" n = Some Sconnecting ∧ getQRCode "A" n = challenge).
Proof. vm_compute. repeat split; reflexivity. Qed.

(** ** The guard of the send and query operations *)


Lemma getClient_unregistered (instanceId : string) (m : Manager) :
  instances m !! instanceId = None → getClient instanceId m = None.
Proof. intros H. unfold getClient. rewrite H. reflexivity. Qed.

(** Settles an operation whose [getClient] is known. *)
Ltac enter_with H :=
  unfold perform, sendText, sendMedia, sendMediaBase64, sendLocation,
    sendContact, reactToMessage, deleteMessage, markChatAsRead, blockContact,
    leaveGroup;
  unfold bind, get; cbv iota beta; rewrite ?H.

Lemma getClient_registered (instanceId : string) (instance : nat)
    (i : WAInstance) (m : Manager) :
  instances m !! instanceId = Some instance →
  objects m !! instance = Some i →
  getClient instanceId m = Some (client i).
Proof.
  intros Hreg Hobj. unfold getClient. rewrite Hreg. simpl. by rewrite Hobj.
Qed.




(** * Further properties

    What the rest of the manager, the message routes and the
    authentication routes do, beyond the claims above. *)

(** ** The manager, method by method *)

(** *** [updateInstanceStatus] *)

(** Rewriting the value of a key that is there is [alter]; on a key that
    is not there [alter] does nothing. *)
Lemma insert_as_alter `{Countable K} {A} (f : A → A) (k : K) (x : A)
    (t : gmap K A) :
  t !! k = Some x → <[k := f x]> t = alter f k t.
Proof.
  intros Hk. apply map_eq. intros j. destruct (decide (k = j)) as [<-|Hne].
  - rewrite lookup_insert_eq, lookup_alter_eq, Hk. reflexivity.
  - rewrite lookup_insert_ne, lookup_alter_ne by exact Hne. reflexivity.
Qed.

Lemma alter_absent `{Countable K} {A} (f : A → A) (k : K) (t : gmap K A) :
  t !! k = None → alter f k t = t.
Proof.
  intros Hk. apply map_eq. intros j. destruct (decide (k = j)) as [<-|Hne].
  - rewrite lookup_alter_eq, Hk. reflexivity.
  - rewrite lookup_alter_ne by exact Hne. reflexivity.
Qed.

(** What [updateInstanceStatus] does to the repository. *)
Lemma updateInstanceStatus_db (failure : option Error) (instanceId : string)
    (st : DbStatus) (m : Manager) :
  db (snd (updateInstanceStatus failure instanceId st m))
  = match failure with
    | Some _ => db m
    | None => alter (row_with_status st) instanceId (db m)
    end.
Proof.
  unfold updateInstanceStatus, prisma_instance_update. run.
  destruct failure as [e|]; [done|].
  destruct (db m !! instanceId) as [row|] eqn:Hrow; simpl.
  - apply (insert_as_alter (row_with_status st)), Hrow.
  - symmetry. apply alter_absent, Hrow.
Qed.

(** Splits on the outcome of the [updateInstanceStatus] of the goal. *)
Ltac settle_update :=
  match goal with
  | |- context [updateInstanceStatus ?f ?k ?s ?m0] =>
      let Hres := fresh "Hres" in
      let Hframe := fresh "Hframe" in
      let Hdb := fresh "Hdb" in
      pose proof (updateInstanceStatus_resolves f k s m0) as Hres;
      pose proof (updateInstanceStatus_frame f k s m0) as Hframe;
      pose proof (updateInstanceStatus_db f k s m0) as Hdb;
      destruct (updateInstanceStatus f k s m0) as [? ?];
      simpl in Hres, Hframe, Hdb;
      destruct Hframe as (? & ? & ? & ? & ? & ? & ?); subst; simpl
  end.

(** Splits on every scrutinee of the goal, innermost first. *)
Ltac settle :=
  repeat first
    [ settle_update
    | match goal with
      | |- context [match ?x with _ => _ end] =>
          lazymatch x with
          | context [match _ with _ => _ end] => fail
          | _ => destruct x eqn:?; simpl
          end
      end ].

(** X1: [updateInstanceStatus] always resolves. When the repository
    answers, the row of the id (if there is one) gets the status and keeps
    its number and name, and no other row changes. When the repository
    fails, or has no row for the id, the repository is as before and one
    error line is logged; otherwise nothing is logged. Nothing else of the
    manager changes. *)
Theorem updateInstanceStatus_outcome (failure : option Error)
    (instanceId : string) (st : DbStatus) (m : Manager) :
  let r := updateInstanceStatus failure instanceId st m in
  fst r = Ok tt
  ∧ db (snd r)
    = match failure with
      | Some _ => db m
      | None => alter (row_with_status st) instanceId (db m)
      end
  ∧ logs (snd r)
    = match failure, db m !! instanceId with
      | None, Some _ => logs m
      | Some e, _ =>
          logs m ++ [mkLogEntry Lerror instanceId (Some (message_of e))
                       "Failed to update instance status"]
      | None, None =>
          logs m ++ [mkLogEntry Lerror instanceId
                       (Some "Record to update not found.")
                       "Failed to update instance status"]
      end
  ∧ instances (snd r) = instances m ∧ objects (snd r) = objects m
  ∧ listeners (snd r) = listeners m ∧ next_ref (snd r) = next_ref m
  ∧ fs (snd r) = fs m ∧ calls (snd r) = calls m
  ∧ emitted (snd r) = emitted m.
Proof.
  unfold updateInstanceStatus, prisma_instance_update. run.
  destruct failure as [e|]; [done|].
  destruct (db m !! instanceId) as [row|] eqn:Hrow; simpl.
  - repeat split. apply (insert_as_alter (row_with_status st)), Hrow.
  - repeat split. symmetry. apply alter_absent, Hrow.
Qed.

(** *** [createInstance] and [connect] *)


(** X3: [connect] on a registered instance that is not connected keeps
    the handle: it sets the status to ['connecting'], leaves the QR fields
    and the registry as they are, and calls [initialize] once, on the
    client the instance already has. When [initialize] rejects, [connect]
    rejects with the same error and the status stays ['connecting']. *)
Theorem connect_registered_reinitializes (dir : string)
    (join : string → string → string) (instanceId : string) (handle : nat)
    (i : WAInstance) (initialized : Result unit) (m : Manager) :
  instances m !! instanceId = Some handle →
  objects m !! handle = Some i →
  status i ≠ Sconnected →
  let r := connect dir join instanceId initialized m in
  fst r = match initialized with
          | Ok _ => Ok handle
          | Throw e => Throw e
          end
  ∧ instances (snd r) = instances m
  ∧ objects (snd r)
    = <[handle := mkWAInstance (client i) (id i) Sconnecting (qrCode i)
                    (qrCodeBase64 i)]> (objects m)
  ∧ calls (snd r) = calls m ++ [Cinitialize (client i)]
  ∧ next_ref (snd r) = next_ref m ∧ db (snd r) = db m
  ∧ emitted (snd r) = emitted m.
Proof.
  intros Hreg Hobj Hst. unfold connect. run. rewrite Hreg. simpl.
  rewrite Hobj. rewrite decide_False by exact Hst.
  assert (alter (with_status Sconnecting) handle (objects m)
          = <[handle := mkWAInstance (client i) (id i) Sconnecting (qrCode i)
                          (qrCodeBase64 i)]> (objects m)) as Halter
    by (symmetry; apply (insert_as_alter (with_status Sconnecting)), Hobj).
  destruct initialized as [[]|e]; simpl; rewrite Halter; done.
Qed.

Lemma connect_registered_reinitializes_sample :
  let r := connect "/sessions" plain_join "A" (Throw (mkError "Timeout"))
             sample_disconnected in
  fst r = Throw (mkError "Timeout")
  ∧ getStatus "A" (snd r) = Some Sconnecting.
Proof.
  destruct (connect_registered_reinitializes "/sessions" plain_join "A" 1
              (mkWAInstance 0 "A" Sdisconnected None None)
              (Throw (mkError "Timeout")) sample_disconnected)
    as (Hres & Hins & Hobj & _); [vm_compute; reflexivity..|discriminate|].
  split; [exact Hres|]. unfold getStatus. rewrite Hins, Hobj.
  vm_compute. reflexivity.
Defined.

(** *** [disconnect] and [deleteInstance] *)

(** X4: [disconnect] on a registered instance calls [destroy] once on its
    client and keeps the handle registered. When [destroy] rejects,
    [disconnect] rejects with the same error, and neither the instance nor
    the repository is written. When [destroy] resolves, [disconnect]
    resolves whatever the repository does, the status becomes
    ['disconnected'] with the QR fields as they were, and the row keeps
    its number and name. *)
Theorem disconnect_registered (instanceId : string) (handle : nat)
    (i : WAInstance) (destroyed : Result unit) (failure : option Error)
    (m : Manager) :
  instances m !! instanceId = Some handle →
  objects m !! handle = Some i →
  let r := disconnect instanceId destroyed failure m in
  instances (snd r) = instances m
  ∧ calls (snd r) = calls m ++ [Cdestroy (client i)]
  ∧ match destroyed with
    | Throw e =>
        fst r = Throw e ∧ objects (snd r) = objects m ∧ db (snd r) = db m
        ∧ logs (snd r) = logs m
    | Ok _ =>
        fst r = Ok tt
        ∧ objects (snd r)
          = <[handle := mkWAInstance (client i) (id i) Sdisconnected
                          (qrCode i) (qrCodeBase64 i)]> (objects m)
        ∧ db (snd r)
          = match failure with
            | Some _ => db m
            | None => alter (row_with_status DISCONNECTED) instanceId (db m)
            end
    end.
Proof.
  intros Hreg Hobj. unfold disconnect. run. rewrite Hreg. simpl.
  rewrite Hobj. destruct destroyed as [[]|e]; simpl; [|done].
  match goal with
  | |- context [updateInstanceStatus ?f ?k ?s ?m0] =>
      pose proof (updateInstanceStatus_resolves f k s m0) as Hres;
      pose proof (updateInstanceStatus_frame f k s m0) as Hframe;
      pose proof (updateInstanceStatus_db f k s m0) as Hdb;
      destruct (updateInstanceStatus f k s m0) as [res m1]
  end.
  simpl in Hres, Hframe, Hdb. destruct Hframe as (Hi & Ho & _ & Hc & _).
  simpl. rewrite Hres, Hdb, Hi, Ho, Hc. simpl. repeat split.
  symmetry. apply (insert_as_alter (with_status Sdisconnected)), Hobj.
Qed.

Lemma disconnect_registered_sample :
  let r := disconnect "A" (Ok tt) (Some (mkError "down")) sample_connected in
  fst r = Ok tt ∧ getStatus "A" (snd r) = Some Sdisconnected
  ∧ db (snd r) = db sample_connected.
Proof.
  destruct (disconnect_registered "A" 1
              (mkWAInstance 0 "A" Sconnected None None) (Ok tt)
              (Some (mkError "down")) sample_connected)
    as (Hins & _ & Hres & Hobj & Hdb); [vm_compute; reflexivity..|].
  split; [exact Hres|]. split; [|exact Hdb].
  unfold getStatus. rewrite Hins, Hobj. vm_compute. reflexivity.
Defined.



(** After [deleteInstance] the registry does not hold the id. *)
Lemma deleteInstance_unregisters (dir : string)
    (join : string → string → string) (instanceId : string)
    (destroyed : Result unit) (m : Manager) :
  well_formed m →
  instances (snd (deleteInstance dir join instanceId destroyed m))
    !! instanceId = None.
Proof.
  intros (_ & Hins & _). unfold deleteInstance. run.
  destruct (instances m !! instanceId) as [handle|] eqn:Hreg; simpl.
  - destruct (Hins _ _ Hreg) as [i Hobj]. rewrite Hobj.
    destruct destroyed; simpl; destruct (existsSync _ _); simpl;
      apply lookup_delete_eq.
  - destruct (existsSync _ _); simpl; apply lookup_delete_eq.
Qed.

(** X6: from a well-formed state, once [deleteInstance] has run on an id,
    whatever the outcome of [destroy] and whether the id was registered or
    not, the manager reports the id as not found, has no QR code for it,
    and every send or query operation on it throws the not-connected
    error without a call on any client. *)
Theorem deleted_instance_is_unknown (dir : string)
    (join : string → string → string) (instanceId : string)
    (destroyed : Result unit) (req : Request) (m : Manager) :
  well_formed m →
  let m' := snd (deleteInstance dir join instanceId destroyed m) in
  getInstance instanceId m' = None
  ∧ getStatus instanceId m' = None
  ∧ getQRCode instanceId m' = (None, None)
  ∧ perform instanceId req m' = (Throw (not_connected instanceId), m').
Proof.
  intros Hwf.
  pose proof (deleteInstance_unregisters dir join instanceId destroyed m Hwf)
    as Hgone.
  simpl. unfold getInstance, getStatus, getQRCode. rewrite Hgone. simpl.
  repeat split.
  pose proof (getClient_unregistered _ _ Hgone) as Hc.
  destruct req; enter_with Hc; reflexivity.
Qed.

Lemma deleted_instance_is_unknown_sample :
  let m' := snd (deleteInstance "/sessions" plain_join "A"
                   (Throw (mkError "Session closed")) sample_connected) in
  perform "A" (ReqSendText "5511" "hi" (Ok sample_message)) m'
  = (Throw (not_connected "A"), m').
Proof.
  apply (deleted_instance_is_unknown "/sessions" plain_join "A").
  apply well_formed_notify, well_formed_notify, well_formed_connect,
    well_formed_new_manager.
Defined.

(** *** [logout] *)

(** X28: [logout] on an id that the registry does not hold throws the
    not-found error and changes nothing. On a registered instance whose
    client lets go, it resolves whatever the repository does: it calls
    [logout] and then [destroy] on the client, removes the id from the
    registry, sets the status of the object to ['disconnected'], and sets
    the row of the id to [DISCONNECTED] with its number and name kept
    (when the repository fails, the row is as before). The handlers stay
    installed on the client. *)
Theorem logout_outcome (dir : string) (join : string → string → string)
    (instanceId : string) (failure : option Error) (m : Manager) :
  (instances m !! instanceId = None →
   ∀ logged_out destroyed,
     logout dir join instanceId logged_out destroyed failure m
     = (Throw (not_found instanceId), m))
  ∧ (∀ handle i,
       instances m !! instanceId = Some handle →
       objects m !! handle = Some i →
       let r := logout dir join instanceId (Ok tt) (Ok tt) failure m in
       fst r = Ok tt
       ∧ calls (snd r) = calls m ++ [Clogout (client i); Cdestroy (client i)]
       ∧ instances (snd r) = delete instanceId (instances m)
       ∧ objects (snd r)
         = <[handle := mkWAInstance (client i) (id i) Sdisconnected
                         (qrCode i) (qrCodeBase64 i)]> (objects m)
       ∧ listeners (snd r) = listeners m
       ∧ db (snd r)
         = match failure with
           | Some _ => db m
           | None => alter (row_with_status DISCONNECTED) instanceId (db m)
           end).
Proof.
  split.
  - intros Habsent logged_out destroyed. unfold logout. run.
    rewrite Habsent. reflexivity.
  - intros handle i Hreg Hobj. unfold logout. run. rewrite Hreg. simpl.
    rewrite Hobj. simpl. destruct (existsSync _ _); run; settle_update;
      repeat match goal with
             | H : _ ?m0 = _ |- context [_ ?m0] => rewrite H; clear H
             end;
      simpl; rewrite <- app_assoc; repeat split;
      symmetry; apply (insert_as_alter (with_status Sdisconnected)), Hobj.
Qed.

Lemma logout_outcome_sample :
  logout "/sessions" plain_join "B" (Ok tt) (Ok tt) None sample_connected
  = (Throw (not_found "B"), sample_connected).
Proof.
  apply (logout_outcome "/sessions" plain_join "B" None sample_connected).
  vm_compute. reflexivity.
Defined.

(** *** Notifications *)

(** X7: a notification never calls a client and never touches the
    registry, the file system or the installed handlers; of the instance
    objects it writes at most the one its handlers captured, and of the
    repository at most the row of that instance's id. *)
Theorem notify_frame (c : nat) (n : Notification) (ext : External)
    (m : Manager) :
  let m' := snd (notify c n ext m) in
  instances m' = instances m ∧ fs m' = fs m ∧ calls m' = calls m
  ∧ listeners m' = listeners m ∧ next_ref m' = next_ref m
  ∧ (∀ r, listeners m !! c ≠ Some r → objects m' !! r = objects m !! r)
  ∧ (∀ instance i k,
       listeners m !! c = Some instance → objects m !! instance = Some i →
       k ≠ id i → db m' !! k = db m !! k).
Proof.
  unfold notify. run. destruct (listeners m !! c) as [instance|]; simpl;
    [|done].
  destruct (objects m !! instance) as [i|] eqn:Hobj; simpl; [|done].
  assert (∀ r f (o : gmap nat WAInstance),
            Some instance ≠ Some r → alter f instance o !! r = o !! r)
    as Hother by (intros r f o Hne; apply lookup_alter_ne; congruence).
  assert (∀ (k : string) f (t : gmap string DbInstance),
            k ≠ id i → alter f (id i) t !! k = t !! k)
    as Hrow by (intros k f t Hne; apply lookup_alter_ne; congruence).
  destruct n; unfold handler, prisma_instance_update; run;
    repeat first
      [ settle_update
      | match goal with
        | |- context [match ?x with _ => _ end] =>
            lazymatch x with
            | context [match _ with _ => _ end] => fail
            | _ => destruct x eqn:?; simpl
            end
        end ];
    repeat split; try reflexivity; try congruence;
    try (intros r Hne;
         repeat match goal with
                | H : objects _ = _ |- _ => rewrite H; clear H
                end;
         rewrite ?Hother by exact Hne; reflexivity);
    try (intros instance' i' k [= <-] Hobj' Hne;
         rewrite Hobj in Hobj'; injection Hobj' as <-;
         repeat match goal with
                | H : db _ = _ |- _ => rewrite H; clear H
                end;
         try destruct (db_failure ext);
         rewrite ?Hrow, ?lookup_insert_ne by congruence; reflexivity).
Qed.

Lemma notify_frame_sample :
  db (snd (notify 0 on_ready sample_external sample_awaiting_scan)) !! "B"
  = db sample_awaiting_scan !! "B".
Proof.
  destruct (notify_frame 0 on_ready sample_external sample_awaiting_scan)
    as (_ & _ & _ & _ & _ & _ & Hdb).
  apply (Hdb 1 (mkWAInstance 0 "A" Sqr (Some "2@abc")
                  (Some "data:image/png;base64,2@abc")) "B");
    [vm_compute; reflexivity..|discriminate].
Defined.

(** X8: the handlers of a client publish under the id of the instance
    they were installed for and under the name of the notification they
    received. A notification publishes one event when its handler
    resolves and none when it rejects. *)
Theorem notify_publishes_for_its_instance (c : nat) (n : Notification)
    (ext : External) (m : Manager) (instance : nat) (i : WAInstance) :
  listeners m !! c = Some instance →
  objects m !! instance = Some i →
  let r := notify c n ext m in
  ∃ published,
    emitted (snd r) = emitted m ++ published
    ∧ Forall (λ e, instanceId_of e = id i
                   ∧ event_of_emitted e = event_of_notification n) published
    ∧ length published = match fst r with Ok _ => 1 | Throw _ => 0 end.
Proof.
  intros Hl Hobj. unfold notify. run. rewrite Hl. simpl. rewrite Hobj.
  destruct n; unfold handler, prisma_instance_update; run;
    repeat first
      [ settle_update
      | match goal with
        | |- context [match ?x with _ => _ end] =>
            lazymatch x with
            | context [match _ with _ => _ end] => fail
            | _ => destruct x eqn:?; simpl
            end
        end ];
    repeat match goal with
           | H : emitted _ = _ |- _ => rewrite H; clear H
           | H : ?x = Ok _ |- context [match ?x with _ => _ end] => rewrite H
           end;
    first [ eexists; split; [reflexivity|];
            split; [repeat constructor|reflexivity]
          | exists []; split; [by rewrite app_nil_r|];
            split; [constructor|reflexivity] ].
Qed.

Lemma notify_publishes_for_its_instance_sample :
  ∃ published,
    emitted (snd (notify 0 (on_message sample_message) sample_external
                    sample_connected))
    = emitted sample_connected ++ published
    ∧ Forall (λ e, instanceId_of e = "A"
                   ∧ event_of_emitted e = ev_message) published
    ∧ length published = 1.
Proof.
  apply (notify_publishes_for_its_instance 0 (on_message sample_message)
           sample_external sample_connected 1
           (mkWAInstance 0 "A" Sconnected None None));
    vm_compute; reflexivity.
Defined.

(** X9: the notifications ['authenticated'], ['message'],
    ['message_create'], ['message_ack'], ['message_revoke_everyone'],
    ['group_join'], ['group_leave'], ['group_update'] and ['call'] are only
    relayed: their handler resolves and leaves every instance object (so
    every status and QR field) and the repository as they were. *)
Theorem relayed_notifications_write_nothing (c : nat) (n : Notification)
    (ext : External) (m : Manager) :
  relayed n = true →
  well_formed m →
  let r := notify c n ext m in
  fst r = Ok tt ∧ objects (snd r) = objects m ∧ db (snd r) = db m.
Proof.
  intros Hn (_ & _ & Hls). unfold notify. run.
  destruct (listeners m !! c) as [instance|] eqn:Hl; simpl; [|done].
  destruct (Hls _ _ Hl) as [i Hobj]. rewrite Hobj.
  destruct n; try discriminate Hn; unfold handler; run; done.
Qed.

Lemma relayed_notifications_write_nothing_sample :
  let r := notify 0 (on_call "offer") sample_external sample_connected in
  fst r = Ok tt ∧ objects (snd r) = objects sample_connected
  ∧ db (snd r) = db sample_connected.
Proof.
  apply (relayed_notifications_write_nothing 0 (on_call "offer")
           sample_external sample_connected); [reflexivity|].
  apply well_formed_notify, well_formed_notify, well_formed_connect,
    well_formed_new_manager.
Defined.

(** X10: the ['qr'] handler sets the status to ['qr'] and [qrCode] to the
    new challenge before it renders it. When [QRCode.toDataURL] resolves,
    [qrCodeBase64] is the rendering and the ['qr'] event carries it. When
    it rejects, the handler rejects with the same error: [qrCodeBase64]
    keeps what it held before (nothing, or the rendering of an earlier
    challenge), no event is published and the repository is not
    written. *)
Theorem qr_handler_outcome (instance : nat) (instanceId qr : string)
    (ext : External) (m : Manager) (i : WAInstance) :
  objects m !! instance = Some i →
  let r := handler instance instanceId (on_qr qr) ext m in
  match toDataURL ext qr with
  | Ok rendered =>
      fst r = Ok tt
      ∧ objects (snd r) !! instance
        = Some (mkWAInstance (client i) (id i) Sqr (Some qr) (Some rendered))
      ∧ emitted (snd r)
        = emitted m ++ [emit_qr instanceId qr (Some rendered)]
  | Throw e =>
      fst r = Throw e
      ∧ objects (snd r) !! instance
        = Some (mkWAInstance (client i) (id i) Sqr (Some qr) (qrCodeBase64 i))
      ∧ emitted (snd r) = emitted m ∧ db (snd r) = db m
      ∧ logs (snd r) = logs m
  end.
Proof.
  intros Hobj. unfold handler. run.
  destruct (toDataURL ext qr) as [rendered|e]; simpl.
  - rewrite !lookup_alter_eq, Hobj. simpl. settle_update.
    repeat match goal with
           | H : emitted _ = _ |- _ => rewrite H; clear H
           | H : objects _ = _ |- _ => rewrite H; clear H
           end.
    rewrite !lookup_alter_eq, Hobj. done.
  - rewrite !lookup_alter_eq, Hobj. done.
Qed.

Lemma qr_handler_outcome_sample :
  let broken := mkExternal (λ _, Throw (mkError "Too much data"))
                  sample_info None in
  let r := handler 1 "A" (on_qr "2@def") broken sample_awaiting_scan in
  fst r = Throw (mkError "Too much data")
  ∧ objects (snd r) !! 1
    = Some (mkWAInstance 0 "A" Sqr (Some "2@def")
              (Some "data:image/png;base64,2@abc")).
Proof.
  destruct (qr_handler_outcome 1 "A" "2@def"
              (mkExternal (λ _, Throw (mkError "Too much data")) sample_info
                 None)
              sample_awaiting_scan
              (mkWAInstance 0 "A" Sqr (Some "2@abc")
                 (Some "data:image/png;base64,2@abc")))
    as (Hres & Hobj & _); [vm_compute; reflexivity|].
  split; [exact Hres|exact Hobj].
Defined.

(** X11: when the repository answers and has the row of the instance, the
    ['ready'] handler resolves: the instance is ['connected'] without QR
    fields, the row holds [CONNECTED] with the number and the name of
    [client.info], no other row changes, and one ['ready'] event with that
    info is published. *)
Theorem ready_handler_persists_identity (instance : nat)
    (instanceId : string) (ext : External) (m : Manager) (i : WAInstance)
    (row : DbInstance) :
  objects m !! instance = Some i →
  db_failure ext = None →
  db m !! instanceId = Some row →
  let r := handler instance instanceId on_ready ext m in
  fst r = Ok tt
  ∧ objects (snd r) !! instance
    = Some (mkWAInstance (client i) (id i) Sconnected None None)
  ∧ db (snd r)
    = <[instanceId := mkDbInstance CONNECTED (Some (wid_user (info ext)))
                        (Some (pushname (info ext)))]> (db m)
  ∧ emitted (snd r) = emitted m ++ [emit_ready instanceId (info ext)].
Proof.
  intros Hobj Hup Hrow. unfold handler, prisma_instance_update. run.
  rewrite Hup, Hrow. simpl. rewrite !lookup_alter_eq, Hobj. done.
Qed.

Lemma ready_handler_persists_identity_sample :
  let r := handler 1 "A" on_ready sample_external sample_awaiting_scan in
  fst r = Ok tt
  ∧ db (snd r) !! "A"
    = Some (mkDbInstance CONNECTED (Some "5511999999999") (Some "Ana")).
Proof.
  destruct (ready_handler_persists_identity 1 "A" sample_external
              sample_awaiting_scan
              (mkWAInstance 0 "A" Sqr (Some "2@abc")
                 (Some "data:image/png;base64,2@abc"))
              (mkDbInstance CONNECTING None None))
    as (Hres & _ & Hdb & _); [vm_compute; reflexivity..|].
  split; [exact Hres|]. rewrite Hdb. apply lookup_insert_eq.
Defined.

(** *** One instance at a time *)

(** X12: a lifecycle command on one id leaves the registry entry of every
    other id as it was, and leaves every instance object other than the
    one registered under its id as it was: [connect], [disconnect],
    [logout] and [deleteInstance] act on one instance. *)
Theorem lifecycle_commands_are_per_instance (dir : string)
    (join : string → string → string) (instanceId other : string)
    (m : Manager) :
  well_formed m →
  instanceId ≠ other →
  (∀ initialized,
     untouched m (snd (connect dir join instanceId initialized m))
       instanceId other)
  ∧ (∀ destroyed failure,
       untouched m (snd (disconnect instanceId destroyed failure m))
         instanceId other)
  ∧ (∀ logged_out destroyed failure,
       untouched m
         (snd (logout dir join instanceId logged_out destroyed failure m))
         instanceId other)
  ∧ (∀ destroyed,
       untouched m (snd (deleteInstance dir join instanceId destroyed m))
         instanceId other).
Proof.
  intros (Hlt & _ & _) Hne.
  assert (∀ r f (o : gmap nat WAInstance) h,
            Some h ≠ Some r → alter f h o !! r = o !! r)
    as Hother by (intros r f o h Hr; apply lookup_alter_ne; congruence).
  assert (∀ r x, is_Some (objects m !! r) →
            <[S (next_ref m) := x]> (objects m) !! r = objects m !! r)
    as Hnew.
  { intros r x Hr. apply lookup_insert_ne. apply Hlt in Hr. lia. }
  unfold untouched. repeat split.
  - unfold connect. run.
    destruct (instances m !! instanceId) eqn:Hreg; simpl;
      [|rewrite createInstance_unregistered by exact Hreg; simpl;
        rewrite lookup_insert_eq; simpl];
      settle; rewrite ?lookup_insert_ne by exact Hne; reflexivity.
  - intros r Hr Hh. unfold connect. run.
    destruct (instances m !! instanceId) eqn:Hreg; simpl;
      [|rewrite createInstance_unregistered by exact Hreg; simpl;
        rewrite lookup_insert_eq; simpl];
      settle; rewrite ?Hother by exact Hh; rewrite ?Hnew by exact Hr;
      try reflexivity.
    all: rewrite lookup_alter_ne by (apply Hlt in Hr; lia).
    all: apply Hnew, Hr.
  - unfold disconnect. run. settle;
      repeat match goal with
             | H : instances _ = _ |- _ => rewrite H; clear H
             end; reflexivity.
  - intros r Hr Hh. unfold disconnect. run. settle;
      repeat match goal with
             | H : objects _ = _ |- _ => rewrite H; clear H
             end; rewrite ?Hother by congruence; reflexivity.
  - unfold logout. run. settle;
      repeat match goal with
             | H : instances _ = _ |- _ => rewrite H; clear H
             end; simpl; rewrite ?lookup_delete_ne by exact Hne; reflexivity.
  - intros r Hr Hh. unfold logout. run. settle;
      repeat match goal with
             | H : objects _ = _ |- _ => rewrite H; clear H
             end; simpl; rewrite ?Hother by congruence; reflexivity.
  - unfold deleteInstance. run. settle;
      rewrite ?lookup_delete_ne by exact Hne; reflexivity.
  - intros r Hr Hh. unfold deleteInstance. run. settle; reflexivity.
Qed.

Lemma lifecycle_commands_are_per_instance_sample :
  untouched sample_connected
    (snd (logout "/sessions" plain_join "B" (Ok tt) (Ok tt) None
            sample_connected))
    "B" "A".
Proof.
  apply (lifecycle_commands_are_per_instance "/sessions" plain_join "B" "A"
           sample_connected); [|discriminate].
  apply well_formed_notify, well_formed_notify, well_formed_connect,
    well_formed_new_manager.
Defined.

(** *** Send and query operations *)

(** X13: a send or query operation writes nothing but the record of the
    calls it made: the registry, every instance object (so every status
    and QR field), the repository, the file system, the published events
    and the log are as before, and the earlier calls are a prefix of the
    calls afterwards. *)
Theorem operations_only_call (instanceId : string) (req : Request)
    (m : Manager) :
  let m' := snd (perform instanceId req m) in
  instances m' = instances m ∧ objects m' = objects m
  ∧ listeners m' = listeners m ∧ next_ref m' = next_ref m
  ∧ fs m' = fs m ∧ db m' = db m ∧ emitted m' = emitted m
  ∧ logs m' = logs m
  ∧ ∃ made, calls m' = calls m ++ made.
Proof.
  unfold perform, sendText, sendMedia, sendMediaBase64, sendLocation,
    sendContact, reactToMessage, deleteMessage, markChatAsRead, blockContact,
    leaveGroup.
  destruct req; run; cases; repeat split;
    rewrite <- ?app_assoc;
    first [ eexists; reflexivity | exists []; by rewrite app_nil_r ].
Qed.

(** X14: on a registered instance [sendText] makes one call,
    [sendMessage] with the digits of [to] followed by [@c.us] and the text
    as given; it resolves to the formatted message the client answered, or
    rejects with the error the client rejected with. *)
Theorem sendText_registered (instanceId to text : string)
    (sent : Result Message) (m : Manager) (handle : nat) (i : WAInstance) :
  instances m !! instanceId = Some handle →
  objects m !! handle = Some i →
  let r := sendText instanceId to text sent m in
  calls (snd r)
  = calls m ++ [CsendMessage (client i)
                  (replace_non_digits to +:+ "@c.us") (ContentText text)]
  ∧ fst r = match sent with
            | Ok message => Ok (formatMessage message)
            | Throw e => Throw e
            end.
Proof.
  intros Hreg Hobj.
  pose proof (getClient_registered _ _ _ _ Hreg Hobj) as Hc.
  unfold sendText. unfold bind, get; cbv iota beta. rewrite Hc.
  rewrite formatNumber_digits. run. destruct sent; done.
Qed.

Lemma sendText_registered_sample :
  let r := sendText "A" "+55 (11) 98888-7777" "hi" (Ok sample_message)
             sample_connected in
  calls (snd r)
  = calls sample_connected
    ++ [CsendMessage 0 "5511988887777@c.us" (ContentText "hi")]
  ∧ fst r = Ok (formatMessage sample_message).
Proof.
  apply (sendText_registered "A" "+55 (11) 98888-7777" "hi"
           (Ok sample_message) sample_connected 1
           (mkWAInstance 0 "A" Sconnected None None));
    vm_compute; reflexivity.
Defined.

(** X15: the operations that look something up first stop when the lookup
    rejects: [sendContact], [reactToMessage], [deleteMessage],
    [markChatAsRead], [blockContact] and [leaveGroup] then reject with the
    error of the lookup, and the lookup is the only call they made (no
    message is sent, nothing is deleted, blocked or left). *)
Theorem failed_lookup_stops_operation (instanceId : string) (e : Error)
    (m : Manager) (handle : nat) (i : WAInstance) :
  instances m !! instanceId = Some handle →
  objects m !! handle = Some i →
  let c := client i in
  let stopped (r : Result Response * Manager) (lookup : ClientCall) :=
    fst r = Throw e ∧ calls (snd r) = calls m ++ [lookup] in
  (∀ to contactId sent,
     stopped (perform instanceId (ReqSendContact to contactId (Throw e) sent) m)
       (CgetContactById c (formatNumber contactId)))
  ∧ (∀ messageId reaction reacted,
       stopped
         (perform instanceId
            (ReqReactToMessage messageId reaction (Throw e) reacted) m)
         (CgetMessageById c messageId))
  ∧ (∀ messageId forEveryone deleted,
       stopped
         (perform instanceId
            (ReqDeleteMessage messageId forEveryone (Throw e) deleted) m)
         (CgetMessageById c messageId))
  ∧ (∀ chatId seen,
       stopped (perform instanceId (ReqMarkChatAsRead chatId (Throw e) seen) m)
         (CgetChatById c (formatNumber chatId)))
  ∧ (∀ contactId blocked,
       stopped
         (perform instanceId (ReqBlockContact contactId (Throw e) blocked) m)
         (CgetContactById c (formatNumber contactId)))
  ∧ (∀ groupId gone,
       stopped (perform instanceId (ReqLeaveGroup groupId (Throw e) gone) m)
         (CgetChatById c groupId)).
Proof.
  intros Hreg Hobj.
  pose proof (getClient_registered _ _ _ _ Hreg Hobj) as Hc.
  cbv zeta beta. repeat split; enter_with Hc; run; reflexivity.
Qed.

Lemma failed_lookup_stops_operation_sample :
  let r := perform "A"
             (ReqLeaveGroup "120363@g.us" (Throw (mkError "no chat")) (Ok tt))
             sample_connected in
  fst r = Throw (mkError "no chat")
  ∧ calls (snd r) = calls sample_connected ++ [CgetChatById 0 "120363@g.us"].
Proof.
  destruct (failed_lookup_stops_operation "A" (mkError "no chat")
              sample_connected 1 (mkWAInstance 0 "A" Sconnected None None))
    as (_ & _ & _ & _ & _ & Hleave); [vm_compute; reflexivity..|].
  apply Hleave.
Defined.

(** X16: [reactToMessage] and [deleteMessage] on a message the client does
    not find throw ['Message not found'] after the lookup alone. When the
    message is found, [deleteMessage] makes one [delete] call carrying
    [forEveryone] as given, and settles as that call does. *)
Theorem message_actions (instanceId messageId : string) (m : Manager)
    (handle : nat) (i : WAInstance) :
  instances m !! instanceId = Some handle →
  objects m !! handle = Some i →
  let lookup := CgetMessageById (client i) messageId in
  (∀ reaction reacted,
     reactToMessage instanceId messageId reaction (Ok None) reacted m
     = (Throw (mkError "Message not found"),
        set_calls (λ l, l ++ [lookup]) m))
  ∧ (∀ forEveryone deleted,
       deleteMessage instanceId messageId forEveryone (Ok None) deleted m
       = (Throw (mkError "Message not found"),
          set_calls (λ l, l ++ [lookup]) m))
  ∧ (∀ forEveryone msg deleted,
       let r := deleteMessage instanceId messageId forEveryone (Ok (Some msg))
                  deleted m in
       fst r = deleted
       ∧ calls (snd r)
         = calls m
           ++ [lookup;
               Cdelete (client i) (msg_id_serialized msg) forEveryone]).
Proof.
  intros Hreg Hobj.
  pose proof (getClient_registered _ _ _ _ Hreg Hobj) as Hc.
  cbv zeta beta. repeat split;
    unfold reactToMessage, deleteMessage; unfold bind, get;
    cbv iota beta; rewrite Hc; run; try reflexivity.
  - destruct forEveryone; reflexivity.
  - destruct forEveryone; simpl; rewrite <- app_assoc; reflexivity.
Qed.

Lemma message_actions_sample :
  reactToMessage "A" "3EB0" "+1" (Ok None) (Ok tt) sample_connected
  = (Throw (mkError "Message not found"),
     set_calls (λ l, l ++ [CgetMessageById 0 "3EB0"]) sample_connected).
Proof.
  destruct (message_actions "A" "3EB0" sample_connected 1
              (mkWAInstance 0 "A" Sconnected None None))
    as (Hreact & _); [vm_compute; reflexivity..|].
  apply Hreact.
Defined.

(** X17: [leaveGroup] hands the group id to the client as it is given (it
    does not go through [formatNumber]), and leaves only a group: when
    the chat found is not a group it throws ['Not a group chat'] without a
    [leave] call. When it is a group, it makes one [leave] call and
    settles as that call does. *)
Theorem leaveGroup_registered (instanceId groupId : string) (chat : Chat)
    (gone : Result unit) (m : Manager) (handle : nat) (i : WAInstance) :
  instances m !! instanceId = Some handle →
  objects m !! handle = Some i →
  let r := leaveGroup instanceId groupId (Ok chat) gone m in
  if isGroup chat
  then fst r = gone
       ∧ calls (snd r)
         = calls m ++ [CgetChatById (client i) groupId;
                       Cleave (client i) (chat_id chat)]
  else fst r = Throw (mkError "Not a group chat")
       ∧ calls (snd r) = calls m ++ [CgetChatById (client i) groupId].
Proof.
  intros Hreg Hobj.
  pose proof (getClient_registered _ _ _ _ Hreg Hobj) as Hc.
  unfold leaveGroup. unfold bind, get; cbv iota beta. rewrite Hc. run.
  destruct (isGroup chat); simpl; rewrite <- ?app_assoc; done.
Qed.

Lemma leaveGroup_registered_sample :
  let r := leaveGroup "A" "5511999999999@c.us"
             (Ok (mkChat "5511999999999@c.us" false)) (Ok tt)
             sample_connected in
  fst r = Throw (mkError "Not a group chat")
  ∧ calls (snd r)
    = calls sample_connected ++ [CgetChatById 0 "5511999999999@c.us"].
Proof.
  apply (leaveGroup_registered "A" "5511999999999@c.us"
           (mkChat "5511999999999@c.us" false) (Ok tt) sample_connected 1
           (mkWAInstance 0 "A" Sconnected None None));
    vm_compute; reflexivity.
Defined.

(** ** [formatNumber] *)

Lemma append_cons (c : ascii) (s t : string) :
  String c s +:+ t = String c (s +:+ t).
Proof. reflexivity. Qed.

(** Digits followed by [@c.us] determine the digits. *)
Lemma digits_suffix_inj (d1 d2 : string) :
  all_digits d1 = true → all_digits d2 = true →
  d1 +:+ "@c.us" = d2 +:+ "@c.us" → d1 = d2.
Proof.
  revert d2. induction d1 as [|c d1 IH]; intros [|c' d2] H1 H2 Heq.
  - reflexivity.
  - rewrite append_cons in Heq. injection Heq as <- _. discriminate H2.
  - rewrite append_cons in Heq. injection Heq as -> _. discriminate H1.
  - rewrite !append_cons in Heq. injection Heq as -> Heq.
    simpl in H1, H2. apply andb_prop in H1 as [_ H1].
    apply andb_prop in H2 as [_ H2]. f_equal. apply IH; assumption.
Qed.

(** X18: the addresses that [formatNumber] returns unchanged are exactly
    the strings made of digits (possibly none) followed by [@c.us]. *)
Theorem formatNumber_fixed_points (s : string) :
  formatNumber s = s ↔ ∃ d, all_digits d = true ∧ s = d +:+ "@c.us".
Proof.
  rewrite formatNumber_digits. split.
  - intros Hfix. exists (replace_non_digits s).
    split; [apply all_digits_replace_non_digits|symmetry; exact Hfix].
  - intros (d & Hd & ->). rewrite replace_non_digits_app.
    rewrite (replace_non_digits_id d Hd).
    change (replace_non_digits "@c.us") with "". rewrite app_empty_r.
    reflexivity.
Qed.

Lemma formatNumber_fixed_points_sample :
  formatNumber "5511999999999@c.us" = "5511999999999@c.us"
  ∧ formatNumber "5511999999999@s.whatsapp.net" ≠ "5511999999999@s.whatsapp.net".
Proof.
  split.
  - apply (formatNumber_fixed_points "5511999999999@c.us").
    exists "5511999999999". split; reflexivity.
  - discriminate.
Defined.

(** X19: two inputs are normalized to the same address exactly when they
    have the same digits in the same order: every other character, and
    where it stands, is ignored. *)
Theorem formatNumber_same_address (s t : string) :
  formatNumber s = formatNumber t
  ↔ List.filter is_digit (list_ascii_of_string s)
    = List.filter is_digit (list_ascii_of_string t).
Proof.
  rewrite !formatNumber_digits. split.
  - intros Heq. apply digits_suffix_inj in Heq;
      try apply all_digits_replace_non_digits.
    rewrite !replace_non_digits_filter in Heq.
    apply (f_equal list_ascii_of_string) in Heq.
    rewrite !list_ascii_of_string_of_list_ascii in Heq. exact Heq.
  - intros Heq. rewrite !replace_non_digits_filter, Heq. reflexivity.
Qed.

Lemma formatNumber_same_address_sample :
  formatNumber "+55 11 99999-9999" = formatNumber "(55) 119.9999.9999#".
Proof.
  apply (formatNumber_same_address "+55 11 99999-9999" "(55) 119.9999.9999#").
  reflexivity.
Defined.

(** X20: an input without any digit, the empty string included, is
    normalized to [@c.us], an address with nothing before the suffix; and
    only such inputs are. *)
Theorem formatNumber_without_digits (s : string) :
  formatNumber s = "@c.us"
  ↔ List.forallb (λ c, negb (is_digit c)) (list_ascii_of_string s) = true.
Proof.
  rewrite formatNumber_digits. split.
  - intros Heq.
    apply (digits_suffix_inj _ "") in Heq;
      [|apply all_digits_replace_non_digits|reflexivity].
    induction s as [|c rest IH]; simpl in *; [reflexivity|].
    destruct (is_digit c); [discriminate|]. simpl. apply IH, Heq.
  - intros Hnone.
    assert (replace_non_digits s = "") as ->; [|reflexivity].
    induction s as [|c rest IH]; simpl in *; [reflexivity|].
    apply andb_prop in Hnone as [Hc Hrest].
    destruct (is_digit c); [discriminate|]. apply IH, Hrest.
Qed.

Lemma formatNumber_without_digits_sample :
  formatNumber "" = "@c.us" ∧ formatNumber "group-chat@g.us" = "@c.us".
Proof.
  split.
  - apply (formatNumber_without_digits ""). reflexivity.
  - apply (formatNumber_without_digits "group-chat@g.us"). reflexivity.
Defined.

(** ** The message routes *)

(** X21: when the registry holds no handle for the instance id, every
    message route whose data passed its schema throws an [HTTPException]
    with status 500 and the message ['Instance <id> not connected'], and
    the manager is as before: no call reaches a client. *)
Theorem routes_answer_500_for_unknown_instance (instanceId : string)
    (r : MessageRequest) (m : Manager) :
  refined r = true →
  instances m !! instanceId = None →
  serve instanceId r m
  = (reply_exception 500 ("Instance " +:+ instanceId +:+ " not connected"), m).
Proof.
  intros Hr Habsent%getClient_unregistered.
  destruct r as [data sent|data fetched sent|data sent|data found sent
                |data found reacted|data found deleted|chatId found seen];
    simpl in *;
    unfold post_text, post_media, post_location, post_contact, post_react,
      post_delete, post_read, answer.
  2: { unfold mediaMessageSchema_refinement in Hr.
       destruct (truthy (mm_mediaUrl data)); simpl in Hr;
         [|rewrite Hr];
         unfold sendMedia, sendMediaBase64, bind, get; cbv iota beta;
         rewrite Habsent; reflexivity. }
  all: unfold sendText, sendLocation, sendContact, reactToMessage,
         deleteMessage, markChatAsRead, bind, get; cbv iota beta;
       rewrite Habsent; reflexivity.
Qed.

Lemma routes_answer_500_for_unknown_instance_sample :
  serve "B" (PostText (mkTextMessage "5511" "hi") (Ok sample_message))
    sample_connected
  = (reply_exception 500 "Instance B not connected", sample_connected).
Proof.
  apply (routes_answer_500_for_unknown_instance "B"
           (PostText (mkTextMessage "5511" "hi") (Ok sample_message))
           sample_connected); [reflexivity|vm_compute; reflexivity].
Defined.



(** ** The authentication routes *)

Section AuthFacts.

Context (bcrypt_compare : string → string → bool)
  (generateToken : string → string → string → string).


Lemma findUnique_email_found (email : string) (users : list User)
    (user : User) :
  findUnique_email email users = Some user →
  user ∈ users ∧ user_email user = email.
Proof.
  intros Hfind. apply List.find_some in Hfind as [Hin Heq].
  split; [apply list_elem_of_In, Hin|]. apply String.eqb_eq, Heq.
Qed.

Lemma findUnique_email_absent (email : string) (users : list User) :
  findUnique_email email users = None ↔ email ∉ user_email <$> users.
Proof.
  unfold findUnique_email. split.
  - intros Hnone (u & -> & Hin)%list_elem_of_fmap.
    apply list_elem_of_In in Hin.
    apply (List.find_none _ _ Hnone) in Hin. simpl in Hin.
    rewrite String.eqb_refl in Hin. discriminate.
  - intros Hnot. destruct (List.find _ users) as [u|] eqn:Hfind;
      [|reflexivity].
    apply List.find_some in Hfind as [Hin Heq].
    apply String.eqb_eq in Heq. exfalso. apply Hnot, list_elem_of_fmap.
    exists u. split; [by symmetry|apply list_elem_of_In, Hin].
Qed.

(** X23: [login] has one answer for every failure: an email that no user
    has and a password that does not match both get status 401 with
    ['Invalid credentials']. It succeeds only with a stored user that has
    the email and whose stored hash [bcrypt.compare] accepts for the
    password, and then answers with that user and a token for it. *)
Theorem login_outcome (data : LoginData) (users : list User) :
  let reply := login bcrypt_compare generateToken data users in
  (∃ user,
     user ∈ users
     ∧ user_email user = login_email data
     ∧ bcrypt_compare (login_password data) (user_password user) = true
     ∧ reply = auth_json (session_of generateToken user))
  ∨ reply = auth_exception 401 "Invalid credentials".
Proof.
  unfold login. destruct (findUnique_email _ users) as [user|] eqn:Hfind;
    [|right; reflexivity].
  destruct (findUnique_email_found _ _ _ Hfind) as [Hin Heq].
  destruct (bcrypt_compare _ _) eqn:Hok; simpl; [left|right; reflexivity].
  exists user. auto.
Qed.

(** X24: [register] keeps the emails of the table distinct. With an email
    that a user already has it throws status 400 with ['Email already
    registered'] and the table is as before; otherwise it adds one row,
    with the email, the hash it was given in place of the password, and
    the name, and answers with that user. *)
Theorem register_keeps_emails_unique (data : RegisterData)
    (hashedPassword new_id role : string) (users : list User) :
  NoDup (user_email <$> users) →
  let r := register generateToken data hashedPassword new_id role users in
  let user := mkUser new_id (reg_email data) hashedPassword (reg_name data)
                role in
  NoDup (user_email <$> snd r)
  ∧ (reg_email data ∈ user_email <$> users →
     r = (auth_exception 400 "Email already registered", users))
  ∧ (reg_email data ∉ user_email <$> users →
     r = (auth_json (session_of generateToken user), users ++ [user])).
Proof.
  intros Hnodup. unfold register.
  destruct (findUnique_email (reg_email data) users) as [u|] eqn:Hfind;
    simpl.
  - split; [exact Hnodup|].
    destruct (findUnique_email_found _ _ _ Hfind) as [Hin Heq].
    split; [reflexivity|]. intros Hnot. exfalso.
    apply Hnot, list_elem_of_fmap. exists u. split; [by symmetry|exact Hin].
  - apply findUnique_email_absent in Hfind.
    split; [|split; [intros Hin; contradiction|reflexivity]].
    rewrite fmap_app. simpl. apply NoDup_app.
    split; [exact Hnodup|]. split; [|apply NoDup_singleton].
    intros x Hx ->%list_elem_of_singleton. exact (Hfind Hx).
Qed.


End AuthFacts.

Lemma register_keeps_emails_unique_sample :
  let token := λ userId email role : string, "jwt:" +:+ userId in
  let ana := mkUser "u1" "ana@example.org" "$2a$12$h" (Some "Ana") "USER" in
  register token (mkRegisterData "ana@example.org" "secret1" None)
    "$2a$12$x" "u2" "USER" [ana]
  = (auth_exception 400 "Email already registered", [ana]).
Proof.
  destruct (register_keeps_emails_unique
              (λ userId email role : string, "jwt:" +:+ userId)
              (mkRegisterData "ana@example.org" "secret1" None)
              "$2a$12$x" "u2" "USER"
              [mkUser "u1" "ana@example.org" "$2a$12$h" (Some "Ana") "USER"])
    as (_ & Htaken & _).
  - apply NoDup_singleton.
  - apply Htaken. apply list_elem_of_singleton. reflexivity.
Defined.


(** ** The invariant of the registry *)

Lemma coherent_alter ins objs ls n (f : WAInstance → WAInstance) r :
  (∀ i, client (f i) = client i ∧ id (f i) = id i) →
  coherent_parts ins objs ls n →
  coherent_parts ins (alter f r objs) ls n.
Proof.
  intros Hf [Hwf Hreg]. split; [by apply well_formed_alter|].
  intros k h Hk. destruct (Hreg k h Hk) as (i & Hobj & Hid & Hls & Hlt).
  destruct (decide (r = h)) as [->|Hne].
  - exists (f i). rewrite lookup_alter_eq, Hobj.
    destruct (Hf i) as [-> ->]. done.
  - exists i. rewrite lookup_alter_ne by exact Hne. done.
Qed.

Lemma coherent_with_status ins objs ls n s r :
  coherent_parts ins objs ls n →
  coherent_parts ins (alter (with_status s) r objs) ls n.
Proof. apply coherent_alter. done. Qed.

Lemma coherent_with_qrCode ins objs ls n q r :
  coherent_parts ins objs ls n →
  coherent_parts ins (alter (with_qrCode q) r objs) ls n.
Proof. apply coherent_alter. done. Qed.

Lemma coherent_with_qrCodeBase64 ins objs ls n q r :
  coherent_parts ins objs ls n →
  coherent_parts ins (alter (with_qrCodeBase64 q) r objs) ls n.
Proof. apply coherent_alter. done. Qed.

Lemma coherent_delete ins objs ls n k :
  coherent_parts ins objs ls n → coherent_parts (delete k ins) objs ls n.
Proof.
  intros [Hwf Hreg]. split; [by apply well_formed_delete|].
  intros k' h Hk. apply lookup_delete_Some in Hk as [_ Hk]. eauto.
Qed.

Lemma coherent_create ins objs ls n k st q b :
  coherent_parts ins objs ls n →
  coherent_parts (<[k := S n]> ins) (<[S n := mkWAInstance n k st q b]> objs)
    (<[n := S n]> ls) (S (S n)).
Proof.
  intros [Hwf Hreg]. split; [by apply well_formed_create|].
  intros k' h Hk. apply lookup_insert_Some in Hk as [[<- <-]|[Hne Hk]].
  - exists (mkWAInstance n k st q b). simpl. rewrite !lookup_insert_eq.
    repeat split. lia.
  - destruct (Hreg k' h Hk) as (i & Hobj & Hid & Hls & Hlt).
    destruct Hwf as (Hbound & _).
    assert (h < n) as Hh by (apply Hbound; eauto).
    exists i. rewrite !lookup_insert_ne by lia. repeat split; auto.
Qed.

Lemma coherent_empty : coherent_parts ∅ ∅ ∅ 0.
Proof.
  split; [apply well_formed_empty|]. intros k r Hk.
  by rewrite lookup_empty in Hk.
Qed.

Create HintDb coh.
#[local] Hint Resolve coherent_empty coherent_with_status coherent_with_qrCode
  coherent_with_qrCodeBase64 coherent_delete coherent_create : coh.

Ltac keep := unfold coherent in *; run; settle; eauto 10 with coh.

Lemma coherent_new_manager dir files rows :
  coherent (new_manager dir files rows).
Proof. unfold new_manager, ensureSessionDir. keep. Qed.

Lemma coherent_connect dir join instanceId initialized m :
  coherent m → coherent (snd (connect dir join instanceId initialized m)).
Proof.
  intros H. unfold connect. run.
  destruct (instances m !! instanceId) eqn:Hreg; simpl;
    [|rewrite createInstance_unregistered by exact Hreg; simpl;
      rewrite lookup_insert_eq; simpl];
    keep.
Qed.

Lemma coherent_of_frame m m' :
  instances m' = instances m → objects m' = objects m →
  listeners m' = listeners m → next_ref m' = next_ref m →
  coherent m → coherent m'.
Proof. unfold coherent. by intros -> -> -> ->. Qed.

Lemma coherent_updateInstanceStatus failure instanceId st m :
  coherent m → coherent (snd (updateInstanceStatus failure instanceId st m)).
Proof.
  destruct (updateInstanceStatus_frame failure instanceId st m)
    as (Hi & Ho & _ & _ & _ & Hn & Hl).
  by apply coherent_of_frame.
Qed.

Lemma coherent_disconnect instanceId destroyed failure m :
  coherent m → coherent (snd (disconnect instanceId destroyed failure m)).
Proof.
  intros H. unfold disconnect, updateInstanceStatus, prisma_instance_update.
  unfold coherent in *; run; cases; eauto 10 with coh.
Qed.

Lemma coherent_logout dir join instanceId logged_out destroyed failure m :
  coherent m →
  coherent (snd (logout dir join instanceId logged_out destroyed failure m)).
Proof.
  intros H. unfold logout, updateInstanceStatus, prisma_instance_update.
  unfold coherent in *; run; cases; eauto 10 with coh.
Qed.

Lemma coherent_deleteInstance dir join instanceId destroyed m :
  coherent m →
  coherent (snd (deleteInstance dir join instanceId destroyed m)).
Proof.
  intros H. unfold deleteInstance.
  unfold coherent in *; run; cases; eauto 10 with coh.
Qed.

Lemma coherent_notify c n ext m :
  coherent m → coherent (snd (notify c n ext m)).
Proof.
  intros H.
  unfold notify, handler, updateInstanceStatus, prisma_instance_update.
  destruct n; unfold coherent in *; run; cases; eauto 10 with coh.
Qed.

Lemma coherent_perform instanceId req m :
  coherent m → coherent (snd (perform instanceId req m)).
Proof.
  destruct (perform_frame instanceId req m) as (Hi & Ho & Hl & Hn & _).
  by apply coherent_of_frame.
Qed.

(** X26: the registry stays coherent. In a new manager, and after every
    [connect], [disconnect], [logout], [deleteInstance], notification and
    send or query operation from a coherent state: every registered
    handle has its object, that object carries the id it is registered
    under, and the handlers installed on its client are those of this
    instance. *)
Theorem registry_stays_coherent (dir : string)
    (join : string → string → string) :
  (∀ files rows, coherent (new_manager dir files rows))
  ∧ ∀ m, coherent m →
      (∀ instanceId initialized,
         coherent (snd (connect dir join instanceId initialized m)))
      ∧ (∀ instanceId destroyed failure,
           coherent (snd (disconnect instanceId destroyed failure m)))
      ∧ (∀ instanceId logged_out destroyed failure,
           coherent
             (snd (logout dir join instanceId logged_out destroyed failure m)))
      ∧ (∀ instanceId destroyed,
           coherent (snd (deleteInstance dir join instanceId destroyed m)))
      ∧ (∀ c n ext, coherent (snd (notify c n ext m)))
      ∧ (∀ instanceId req, coherent (snd (perform instanceId req m))).
Proof.
  split; [apply coherent_new_manager|]. intros m Hm.
  split; [intros; by apply coherent_connect|].
  split; [intros; by apply coherent_disconnect|].
  split; [intros; by apply coherent_logout|].
  split; [intros; by apply coherent_deleteInstance|].
  split; [intros; by apply coherent_notify|].
  intros; by apply coherent_perform.
Qed.

Lemma registry_stays_coherent_sample :
  coherent (snd (connect "/sessions" plain_join "A" (Ok tt) sample_manager)).
Proof.
  destruct (registry_stays_coherent "/sessions" plain_join) as [Hnew Hkeep].
  destruct (Hkeep sample_manager (Hnew _ _)) as (Hconnect & _).
  apply Hconnect.
Defined.


